(** * Block headers, their serializers and the Merkle engine of
    [nheqminer/primitives/block.h]

    The header classes and their [SerializationOp] templates are embedded
    from the source.  The primitive serializers behind the [READWRITE]
    macro, the type [uint256] and the three Merkle member functions are only
    declared or included there; they are modelled from the specification
    and marked as such. *)

From Stdlib Require Import ZArith List Bool Lia.
From coqutil Require Import Byte Word.LittleEndianList.
From Equations Require Import Equations.
Import ListNotations.
Local Open Scope Z_scope.

(** ** Streams, errors and results *)

Definition stream := list byte.

Inductive error : Type :=
| TruncatedInput
| MalformedLength
| IndexOutOfRange.

Inductive result (A : Type) : Type :=
| Ok (a : A)
| Err (e : error).

Arguments Ok {A} a.
Arguments Err {A} e.

Definition rbind {A B : Type} (r : result A) (k : A -> result B) : result B :=
  match r with
  | Ok a => k a
  | Err e => Err e
  end.

Notation "' p <- r ;; k" := (rbind r (fun p => k))
  (at level 61, p pattern, r at next level, right associativity).

(** ** Primitive serializers *)

Module Prim.

(** Modelled from the spec: [uint256.h] is not among the sources.  A
    [uint256] is a 256-bit value (spec, section 3); it is a [Z], in range
    when [0 <= x < 2^256].  [SetNull] and the default constructor give the
    zero value, [IsNull] tests for it. *)
Definition uint256 := Z.

(** Modelled from the spec: [uint256.h] is not among the sources.  The
    value of [uint256()] and of [SetNull()], all bits zero. *)
Definition uint256_null : uint256 := 0.

(** Modelled from the spec: [uint256.h] is not among the sources.
    [uint256::IsNull()], the test for the zero value. *)
Definition uint256_IsNull (x : uint256) : bool := x =? 0.

(** The values of the types [uint256], [uint32_t] and [int32_t]. *)
Definition in_uint256 (x : Z) : bool := (0 <=? x) && (x <? 2 ^ 256).
Definition in_uint32 (x : Z) : bool := (0 <=? x) && (x <? 2 ^ 32).
Definition in_int32 (x : Z) : bool := (- 2 ^ 31 <=? x) && (x <? 2 ^ 31).

(** The cast [(int32_t)] of an unsigned 32-bit pattern. *)
Definition to_int32 (u : Z) : Z := if u <? 2 ^ 31 then u else u - 2 ^ 32.

(** Modelled from the spec: the stream's [read] is in [serialize.h], not
    among the sources.  Reading [n] bytes fails with [TruncatedInput] when
    fewer remain (spec, sections 4.1 and 7). *)
Definition read_bytes (n : nat) (s : stream) : result (list byte * stream) :=
  if (n <=? length s)%nat then Ok (firstn n s, skipn n s) else Err TruncatedInput.

(** A primitive serializer: how a value is written and how it is read. *)
Record codec (A : Type) : Type := {
  ser : A -> list byte;
  unser : stream -> result (A * stream)
}.
Arguments ser {A} c a.
Arguments unser {A} c s.

(** Modelled from the spec: the scalar serializers of [serialize.h] are
    not among the sources.  Fixed-width fields take their declared width
    (spec, section 6: 4 bytes for version, time and bits, 32 bytes for a
    hash), least significant byte first. *)
Definition fixed_unsigned (n : nat) : codec Z := {|
  ser := fun v => le_split n v;
  unser := fun s => '(bs, s') <- read_bytes n s ;; Ok (le_combine bs, s')
|}.

(** Modelled from the spec: [serialize.h] is not among the sources.  A
    [uint32_t] field, 4 bytes (spec, section 6). *)
Definition ser_uint32 : codec Z := fixed_unsigned 4.

(** Modelled from the spec: [uint256.h] is not among the sources.  A hash
    field, 32 bytes (spec, section 6). *)
Definition ser_uint256 : codec uint256 := fixed_unsigned 32.

(** Modelled from the spec: [serialize.h] is not among the sources.  An
    [int32_t] or [int] field, 4 bytes, signed (spec, section 6): written as
    its two's complement pattern, read back through the cast. *)
Definition ser_int32 : codec Z := {|
  ser := fun v => le_split 4 v;
  unser := fun s => '(bs, s') <- read_bytes 4 s ;; Ok (to_int32 (le_combine bs), s')
|}.

(** Modelled from the spec: the length prefix of [serialize.h] is not
    among the sources.  A variable-length field is length-prefixed, and a
    prefix above a sanity ceiling or not in its shortest form is a
    [MalformedLength] (spec, sections 4.1 and 7).  The prefix is the
    compact size of the code base this header comes from: one byte below
    253, else a marker byte 253, 254 or 255 and 2, 4 or 8 bytes. *)
Definition MAX_SIZE : Z := 0x02000000.

(** Modelled from the spec: [serialize.h] is not among the sources.  The
    length prefix as it is written. *)
Definition WriteCompactSize (n : Z) : list byte :=
  if n <? 253 then le_split 1 n
  else if n <=? 0xFFFF then byte.of_Z 253 :: le_split 2 n
  else if n <=? 0xFFFFFFFF then byte.of_Z 254 :: le_split 4 n
  else byte.of_Z 255 :: le_split 8 n.

(** Modelled from the spec: [serialize.h] is not among the sources.  A
    length of [n] bytes that a shorter form could have held is malformed. *)
Definition read_canonical (n : nat) (least : Z) (s : stream) : result (Z * stream) :=
  '(bs, s') <- read_bytes n s ;;
  if le_combine bs <? least then Err MalformedLength else Ok (le_combine bs, s').

(** Modelled from the spec: [serialize.h] is not among the sources.  The
    length prefix as it is read: truncated, malformed, or a length up to
    [MAX_SIZE]. *)
Definition ReadCompactSize (s : stream) : result (Z * stream) :=
  '(b, s1) <- read_bytes 1 s ;;
  let chSize := le_combine b in
  '(n, s2) <- (if chSize <? 253 then Ok (chSize, s1)
               else if chSize =? 253 then read_canonical 2 253 s1
               else if chSize =? 254 then read_canonical 4 0x10000 s1
               else read_canonical 8 0x100000000 s1) ;;
  if MAX_SIZE <? n then Err MalformedLength else Ok (n, s2).

(** Modelled from the spec: [serialize.h] is not among the sources.  A
    [std::vector<unsigned char>] is length-prefixed (spec, section 6): the
    compact size, then the bytes. *)
Definition ser_bytes : codec (list byte) := {|
  ser := fun v => WriteCompactSize (Z.of_nat (length v)) ++ v;
  unser := fun s => '(n, s1) <- ReadCompactSize s ;; read_bytes (Z.to_nat n) s1
|}.

(** Modelled from the spec: [serialize.h] is not among the sources.
    Reading [n] elements one after the other. *)
Fixpoint read_items {A : Type} (c : codec A) (n : nat) (s : stream)
  : result (list A * stream) :=
  match n with
  | O => Ok ([], s)
  | S n' => '(a, s1) <- unser c s ;;
            '(l, s2) <- read_items c n' s1 ;;
            Ok (a :: l, s2)
  end.

(** Modelled from the spec: [serialize.h] is not among the sources.  A
    [std::vector] of elements, such as the ordered hash sequence of a
    locator (spec, section 6): the compact size of the element count, then
    each element in order. *)
Definition ser_vector {A : Type} (c : codec A) : codec (list A) := {|
  ser := fun v => WriteCompactSize (Z.of_nat (length v)) ++ concat (map (ser c) v);
  unser := fun s => '(n, s1) <- ReadCompactSize s ;; read_items c (Z.to_nat n) s1
|}.

(** Modelled from the spec: the serialization type flags are constants of
    [serialize.h].  [SER_GETHASH] marks an encoding whose purpose is to
    produce a value for hashing (spec, section 6). *)
Definition SER_NETWORK : Z := 1.
Definition SER_DISK : Z := 2.
Definition SER_GETHASH : Z := 4.

End Prim.
Import Prim.

(** ** The [SerializationOp] templates

    One template serves both directions; [ser_action] selects which.  Its
    body runs on the object and on the local [int nVersion] parameter, here
    the two components of a frame.  Writing cannot fail, reading can. *)

Inductive ser_action : Type :=
| CSerActionSerialize
| CSerActionUnserialize.

Definition outcome (act : ser_action) (A : Type) : Type :=
  match act with
  | CSerActionSerialize => A
  | CSerActionUnserialize => result A
  end.

Definition obind {act : ser_action} {A B : Type}
  : outcome act A -> (A -> outcome act B) -> outcome act B :=
  match act with
  | CSerActionSerialize => fun x k => k x
  | CSerActionUnserialize => fun x k => rbind x k
  end.

Definition oret {act : ser_action} {A : Type} : A -> outcome act A :=
  match act with
  | CSerActionSerialize => fun x => x
  | CSerActionUnserialize => fun x => Ok x
  end.

(** A frame: [this] and the local [nVersion]. *)
Definition frame (T : Type) : Type := (T * Z)%type.

Definition Op (T : Type) : Type :=
  forall act : ser_action, Z -> frame T -> stream -> outcome act (frame T * stream).

Record lens (S A : Type) : Type := {
  get : S -> A;
  set : A -> S -> S
}.
Arguments get {S A} l s.
Arguments set {S A} l a s.

(** A member of [this]. *)
Definition member {T A : Type} (g : T -> A) (u : A -> T -> T) : lens (frame T) A := {|
  get := fun fr => g (fst fr);
  set := fun a fr => (u a (fst fr), snd fr)
|}.

(** The local [int nVersion]. *)
Definition local_nVersion {T : Type} : lens (frame T) Z := {|
  get := fun fr => snd fr;
  set := fun v fr => (fst fr, v)
|}.

(** Modelled from the spec: the macro [READWRITE] is defined in
    [serialize.h], not among the sources.  [READWRITE(x)] writes [x] to the
    stream or reads it from the stream, by the serializer of the type of
    [x]; a failed read leaves no result (spec, section 7). *)
Definition READWRITE {T A : Type} (c : codec A) (x : lens (frame T) A) : Op T :=
  fun act =>
    match act return Z -> frame T -> stream -> outcome act (frame T * stream) with
    | CSerActionSerialize => fun _ fr s => (fr, s ++ ser c (get x fr))
    | CSerActionUnserialize => fun _ fr s =>
        '(a, s') <- unser c s ;; Ok (set x a fr, s')
    end.

(** Modelled from the spec: the macro [READWRITE] is defined in
    [serialize.h], not among the sources.  Applied to an object of a class
    with [ADD_SERIALIZE_METHODS], here a base subobject, it runs that
    class's [SerializationOp] on the same stream, with the caller's [nType]
    and [nVersion]; reading fills the object in place. *)
Definition READWRITE_obj {T A : Type} (op : Op A) (x : lens (frame T) A) : Op T :=
  fun act =>
    match act return Z -> frame T -> stream -> outcome act (frame T * stream) with
    | CSerActionSerialize => fun nType fr s =>
        (fr, snd (op CSerActionSerialize nType (get x fr, snd fr) s))
    | CSerActionUnserialize => fun nType fr s =>
        '(r, s') <- op CSerActionUnserialize nType (get x fr, snd fr) s ;;
        Ok (set x (fst r) fr, s')
    end.

(** Modelled from the spec: the macro [READWRITE] is defined in
    [serialize.h], not among the sources.  Applied to a member whose
    serializer takes the caller's [nType] and [nVersion], such as a vector
    of objects. *)
Definition READWRITE_with {T A : Type} (c : Z -> Z -> codec A) (x : lens (frame T) A)
  : Op T :=
  fun act nType fr s => READWRITE (c nType (snd fr)) x act nType fr s.

(** [x = e;] *)
Definition assign {T A : Type} (x : lens (frame T) A) (e : frame T -> A) : Op T :=
  fun act _ fr s => oret (set x (e fr) fr, s).

(** An [int] used as a condition. *)
Definition truthy (x : Z) : bool := negb (x =? 0).

(** [if (cond(nType)) body] *)
Definition when_nType {T : Type} (cond : Z -> bool) (body : Op T) : Op T :=
  fun act nType fr s => if cond nType then body act nType fr s else oret (fr, s).

Definition seq_op {T : Type} (p q : Op T) : Op T :=
  fun act nType fr s => obind (p act nType fr s) (fun r => q act nType (fst r) (snd r)).

Notation "p ;;; q" := (seq_op p q) (at level 62, right associativity).

(** Modelled from the spec: the macro [ADD_SERIALIZE_METHODS] is defined in
    [serialize.h], not among the sources.  The methods it derives from a
    [SerializationOp]: [Serialize] gives the bytes written, [Unserialize]
    the object read and the rest of the stream. *)
Definition Serialize_with {T : Type} (op : Op T) (obj : T) (nType nVersion : Z) : list byte :=
  snd (op CSerActionSerialize nType (obj, nVersion) []).

Definition Unserialize_with {T : Type} (op : Op T) (obj : T) (s : stream)
  (nType nVersion : Z) : result (T * stream) :=
  '(fr, s') <- op CSerActionUnserialize nType (obj, nVersion) s ;; Ok (fst fr, s').

(** ** [CBlockHeader] *)

Module CBlockHeader.

Definition HEADER_SIZE : Z := 4 + 32 + 32 + 32 + 4 + 4 + 32.
Definition CURRENT_VERSION : Z := 4.

Record t : Type := mk {
  nVersion : Z;
  hashPrevBlock : uint256;
  hashMerkleRoot : uint256;
  hashReserved : uint256;
  nTime : Z;
  nBits : Z;
  nNonce : uint256;
  nSolution : list byte
}.

Definition set_nVersion v h := mk v (hashPrevBlock h) (hashMerkleRoot h) (hashReserved h) (nTime h) (nBits h) (nNonce h) (nSolution h).
Definition set_hashPrevBlock v h := mk (nVersion h) v (hashMerkleRoot h) (hashReserved h) (nTime h) (nBits h) (nNonce h) (nSolution h).
Definition set_hashMerkleRoot v h := mk (nVersion h) (hashPrevBlock h) v (hashReserved h) (nTime h) (nBits h) (nNonce h) (nSolution h).
Definition set_hashReserved v h := mk (nVersion h) (hashPrevBlock h) (hashMerkleRoot h) v (nTime h) (nBits h) (nNonce h) (nSolution h).
Definition set_nTime v h := mk (nVersion h) (hashPrevBlock h) (hashMerkleRoot h) (hashReserved h) v (nBits h) (nNonce h) (nSolution h).
Definition set_nBits v h := mk (nVersion h) (hashPrevBlock h) (hashMerkleRoot h) (hashReserved h) (nTime h) v (nNonce h) (nSolution h).
Definition set_nNonce v h := mk (nVersion h) (hashPrevBlock h) (hashMerkleRoot h) (hashReserved h) (nTime h) (nBits h) v (nSolution h).
Definition set_nSolution v h := mk (nVersion h) (hashPrevBlock h) (hashMerkleRoot h) (hashReserved h) (nTime h) (nBits h) (nNonce h) v.

Definition SerializationOp : Op t :=
  READWRITE ser_int32 (member nVersion set_nVersion) ;;;
  assign local_nVersion (fun fr => nVersion (fst fr)) ;;;
  READWRITE ser_uint256 (member hashPrevBlock set_hashPrevBlock) ;;;
  READWRITE ser_uint256 (member hashMerkleRoot set_hashMerkleRoot) ;;;
  READWRITE ser_uint256 (member hashReserved set_hashReserved) ;;;
  READWRITE ser_uint32 (member nTime set_nTime) ;;;
  READWRITE ser_uint32 (member nBits set_nBits) ;;;
  READWRITE ser_uint256 (member nNonce set_nNonce) ;;;
  READWRITE ser_bytes (member nSolution set_nSolution).

Definition Serialize : t -> Z -> Z -> list byte := Serialize_with SerializationOp.
Definition Unserialize : t -> stream -> Z -> Z -> result (t * stream) :=
  Unserialize_with SerializationOp.

Definition SetNull (h : t) : t :=
  let h := set_nVersion CURRENT_VERSION h in
  let h := set_hashPrevBlock uint256_null h in
  let h := set_hashMerkleRoot uint256_null h in
  let h := set_hashReserved uint256_null h in
  let h := set_nTime 0 h in
  let h := set_nBits 0 h in
  let h := set_nNonce uint256_null h in
  set_nSolution [] h.

Definition IsNull (h : t) : bool := nBits h =? 0.

Definition GetBlockTime (h : t) : Z := nTime h.

(** The constructor [CBlockHeader()] is [SetNull()] on a fresh object;
    what the members held before is overwritten field by field. *)
Definition ctor : t := SetNull (mk 0 0 0 0 0 0 0 []).

(** A header whose every field is a value of its declared C++ type and
    whose solution is no longer than the size ceiling of the stream. *)
Definition valid (h : t) : bool :=
  in_int32 (nVersion h) && in_uint256 (hashPrevBlock h) &&
  in_uint256 (hashMerkleRoot h) && in_uint256 (hashReserved h) &&
  in_uint32 (nTime h) && in_uint32 (nBits h) && in_uint256 (nNonce h) &&
  (Z.of_nat (length (nSolution h)) <=? MAX_SIZE).

End CBlockHeader.

(** ** [CBlock] *)

Module CBlock.
Section WithTransaction.

(** [CTransaction] comes from [primitives/transaction.h]; a block only
    stores transactions. *)
Variable CTransaction : Type.

(** [class CBlock : public CBlockHeader]: the base subobject, then the
    members the class adds. *)
Record t : Type := mk {
  base : CBlockHeader.t;
  vtx : list CTransaction;
  vMerkleTree : list uint256
}.

Definition SetNull (b : t) : t :=
  let b := mk (CBlockHeader.SetNull (base b)) (vtx b) (vMerkleTree b) in
  let b := mk (base b) [] (vMerkleTree b) in
  mk (base b) (vtx b) [].

(** [CBlock()] *)
Definition ctor : t := SetNull (mk CBlockHeader.ctor [] []).

(** [CBlock(const CBlockHeader &header)]: [SetNull()], then the header is
    assigned to the base subobject. *)
Definition of_header (header : CBlockHeader.t) : t :=
  let b := SetNull (mk CBlockHeader.ctor [] []) in
  mk header (vtx b) (vMerkleTree b).

Definition GetBlockHeader (b : t) : CBlockHeader.t :=
  let block := CBlockHeader.ctor in
  let block := CBlockHeader.set_nVersion (CBlockHeader.nVersion (base b)) block in
  let block := CBlockHeader.set_hashPrevBlock (CBlockHeader.hashPrevBlock (base b)) block in
  let block := CBlockHeader.set_hashMerkleRoot (CBlockHeader.hashMerkleRoot (base b)) block in
  let block := CBlockHeader.set_hashReserved (CBlockHeader.hashReserved (base b)) block in
  let block := CBlockHeader.set_nTime (CBlockHeader.nTime (base b)) block in
  let block := CBlockHeader.set_nBits (CBlockHeader.nBits (base b)) block in
  let block := CBlockHeader.set_nNonce (CBlockHeader.nNonce (base b)) block in
  let block := CBlockHeader.set_nSolution (CBlockHeader.nSolution (base b)) block in
  block.

(** The serializer of [CTransaction], from [primitives/transaction.h]. *)
Variable ser_CTransaction : Z -> Z -> codec CTransaction.

Definition set_base (v : CBlockHeader.t) (b : t) : t := mk v (vtx b) (vMerkleTree b).
Definition set_vtx (v : list CTransaction) (b : t) : t := mk (base b) v (vMerkleTree b).

Definition SerializationOp : Op t :=
  READWRITE_obj CBlockHeader.SerializationOp (member base set_base) ;;;
  READWRITE_with (fun nType nVersion => ser_vector (ser_CTransaction nType nVersion))
                 (member vtx set_vtx).

Definition Serialize : t -> Z -> Z -> list byte := Serialize_with SerializationOp.
Definition Unserialize : t -> stream -> Z -> Z -> result (t * stream) :=
  Unserialize_with SerializationOp.

End WithTransaction.
Arguments mk {CTransaction} base vtx vMerkleTree.
Arguments base {CTransaction} t.
Arguments vtx {CTransaction} t.
Arguments vMerkleTree {CTransaction} t.
Arguments SetNull {CTransaction} b.
Arguments GetBlockHeader {CTransaction} b.
Arguments set_base {CTransaction} v b.
Arguments set_vtx {CTransaction} v b.
Arguments SerializationOp {CTransaction} ser_CTransaction.
Arguments Serialize {CTransaction} ser_CTransaction.
Arguments Unserialize {CTransaction} ser_CTransaction.
End CBlock.

(** ** [CEquihashInput] *)

Module CEquihashInput.

(** [class CEquihashInput : private CBlockHeader] adds no member. *)
Record t : Type := mk { base : CBlockHeader.t }.

(** [CEquihashInput(const CBlockHeader &header)] *)
Definition set_base (header : CBlockHeader.t) (e : t) : t := mk header.

Definition of_header (header : CBlockHeader.t) : t :=
  let e := mk (CBlockHeader.SetNull CBlockHeader.ctor) in
  set_base header e.

Definition inherited {A : Type} (g : CBlockHeader.t -> A)
  (u : A -> CBlockHeader.t -> CBlockHeader.t) : lens (frame t) A :=
  member (fun e => g (base e)) (fun a e => mk (u a (base e))).

Definition SerializationOp : Op t :=
  READWRITE ser_int32 (inherited CBlockHeader.nVersion CBlockHeader.set_nVersion) ;;;
  assign local_nVersion (fun fr => CBlockHeader.nVersion (base (fst fr))) ;;;
  READWRITE ser_uint256 (inherited CBlockHeader.hashPrevBlock CBlockHeader.set_hashPrevBlock) ;;;
  READWRITE ser_uint256 (inherited CBlockHeader.hashMerkleRoot CBlockHeader.set_hashMerkleRoot) ;;;
  READWRITE ser_uint256 (inherited CBlockHeader.hashReserved CBlockHeader.set_hashReserved) ;;;
  READWRITE ser_uint32 (inherited CBlockHeader.nTime CBlockHeader.set_nTime) ;;;
  READWRITE ser_uint32 (inherited CBlockHeader.nBits CBlockHeader.set_nBits).

Definition Serialize : t -> Z -> Z -> list byte := Serialize_with SerializationOp.

Definition Unserialize : t -> stream -> Z -> Z -> result (t * stream) :=
  Unserialize_with SerializationOp.

End CEquihashInput.

(** ** [CBlockLocator] *)

Module CBlockLocator.

Record t : Type := mk { vHave : list uint256 }.

Definition set_vHave (v : list uint256) (l : t) : t := mk v.

Definition SerializationOp : Op t :=
  when_nType (fun nType => negb (truthy (Z.land nType SER_GETHASH)))
    (READWRITE ser_int32 local_nVersion) ;;;
  READWRITE (ser_vector ser_uint256) (member vHave set_vHave).

Definition Serialize : t -> Z -> Z -> list byte := Serialize_with SerializationOp.
Definition Unserialize : t -> stream -> Z -> Z -> result (t * stream) :=
  Unserialize_with SerializationOp.

Definition SetNull (l : t) : t := set_vHave [] l.

Definition IsNull (l : t) : bool :=
  match vHave l with
  | [] => true
  | _ :: _ => false
  end.

End CBlockLocator.

(** ** [ABlockHeader] and [AEquihashInput] *)

Module ABlockHeader.

Definition HEADER_SIZE : Z := 32.

Record t : Type := mk {
  headerHash : uint256;
  nNonce : uint256;
  nSolution : list byte
}.

Definition set_headerHash v h := mk v (nNonce h) (nSolution h).
Definition set_nNonce v h := mk (headerHash h) v (nSolution h).
Definition set_nSolution v h := mk (headerHash h) (nNonce h) v.

Definition SerializationOp : Op t :=
  READWRITE ser_uint256 (member headerHash set_headerHash) ;;;
  READWRITE ser_uint256 (member nNonce set_nNonce) ;;;
  READWRITE ser_bytes (member nSolution set_nSolution).

Definition Serialize : t -> Z -> Z -> list byte := Serialize_with SerializationOp.
Definition Unserialize : t -> stream -> Z -> Z -> result (t * stream) :=
  Unserialize_with SerializationOp.

Definition SetNull (h : t) : t :=
  let h := set_headerHash uint256_null h in
  let h := set_nNonce uint256_null h in
  set_nSolution [] h.

Definition ctor : t := SetNull (mk 0 0 []).

Definition valid (h : t) : bool :=
  in_uint256 (headerHash h) && in_uint256 (nNonce h) &&
  (Z.of_nat (length (nSolution h)) <=? MAX_SIZE).

End ABlockHeader.

Module AEquihashInput.

Record t : Type := mk { base : ABlockHeader.t }.

(** [AEquihashInput(const ABlockHeader &header)] *)
Definition set_base (header : ABlockHeader.t) (e : t) : t := mk header.

Definition of_header (header : ABlockHeader.t) : t :=
  let e := mk (ABlockHeader.SetNull ABlockHeader.ctor) in
  set_base header e.

Definition SerializationOp : Op t :=
  READWRITE ser_uint256
    (member (fun e => ABlockHeader.headerHash (base e))
            (fun v e => mk (ABlockHeader.set_headerHash v (base e)))).

Definition Serialize : t -> Z -> Z -> list byte := Serialize_with SerializationOp.

End AEquihashInput.

(** ** [ABlock] *)

Module ABlock.

(** [class ABlock : public ABlockHeader]: the base subobject and the one
    member the class keeps. *)
Record t : Type := mk {
  base : ABlockHeader.t;
  vMerkleTree : list uint256
}.

Definition set_base (v : ABlockHeader.t) (b : t) : t := mk v (vMerkleTree b).

(** Only the base is reset: [vMerkleTree.clear()] is commented out. *)
Definition SetNull (b : t) : t := set_base (ABlockHeader.SetNull (base b)) b.

(** [ABlock()] *)
Definition ctor : t := SetNull (mk ABlockHeader.ctor []).

(** [ABlock(const ABlockHeader &header)] *)
Definition of_header (header : ABlockHeader.t) : t :=
  let b := SetNull (mk ABlockHeader.ctor []) in
  set_base header b.

Definition SerializationOp : Op t :=
  READWRITE_obj ABlockHeader.SerializationOp (member base set_base).

Definition Serialize : t -> Z -> Z -> list byte := Serialize_with SerializationOp.
Definition Unserialize : t -> stream -> Z -> Z -> result (t * stream) :=
  Unserialize_with SerializationOp.

Definition GetBlockHeader (b : t) : ABlockHeader.t :=
  let block := ABlockHeader.ctor in
  let block := ABlockHeader.set_headerHash (ABlockHeader.headerHash (base b)) block in
  let block := ABlockHeader.set_nNonce (ABlockHeader.nNonce (base b)) block in
  let block := ABlockHeader.set_nSolution (ABlockHeader.nSolution (base b)) block in
  block.

End ABlock.

(** ** The operations of the two header families

    The member functions each header class declares for the four operations
    of the codec; an operation the class does not declare is [None]. *)

Record header_ops (H : Type) : Type := {
  op_encodeFull : option (H -> Z -> Z -> list byte);
  op_encodeRestricted : option (H -> Z -> Z -> list byte);
  op_isNull : option (H -> bool);
  op_clear : option (H -> H)
}.
Arguments op_encodeFull {H} h.
Arguments op_encodeRestricted {H} h.
Arguments op_isNull {H} h.
Arguments op_clear {H} h.

Definition CBlockHeader_ops : header_ops CBlockHeader.t := {|
  op_encodeFull := Some CBlockHeader.Serialize;
  op_encodeRestricted :=
    Some (fun h => CEquihashInput.Serialize (CEquihashInput.of_header h));
  op_isNull := Some CBlockHeader.IsNull;
  op_clear := Some CBlockHeader.SetNull
|}.

(** [ABlockHeader::IsNull] is commented out in the source. *)
Definition ABlockHeader_ops : header_ops ABlockHeader.t := {|
  op_encodeFull := Some ABlockHeader.Serialize;
  op_encodeRestricted :=
    Some (fun h => AEquihashInput.Serialize (AEquihashInput.of_header h));
  op_isNull := None;
  op_clear := Some ABlockHeader.SetNull
|}.

(** ** The Merkle engine

    [BuildMerkleTree], [GetMerkleBranch] and [CheckMerkleBranch] are declared
    in [CBlock]; their bodies are in [block.cpp], which is not among the
    sources. *)

Module Merkle.
Section WithDigest.

(** The digest primitive, an external collaborator (spec, section 6). *)
Variable digest : list byte -> uint256.

(** Modelled from the spec: the digest applied to two hashes is in
    [block.cpp] and [hash.h], not among the sources.  [hash(left || right)]
    of step 3, on the 32-byte forms of the two hashes. *)
Definition hash_pair (left right : uint256) : uint256 :=
  digest (ser ser_uint256 left ++ ser ser_uint256 right).

(** Modelled from the spec: the body of [BuildMerkleTree] is missing.
    Step 3 of the algorithm: for [i] in 0, 2, 4, ... up to [n-1], element
    [i] is paired with element [min(i+1, n-1)]; the next level has half
    the length, rounded up. *)
Definition next_level (level : list uint256) : list uint256 :=
  let n := length level in
  map (fun k => let i := (2 * k)%nat in
                hash_pair (nth i level 0) (nth (Nat.min (i + 1) (n - 1)) level 0))
      (seq 0 ((n + 1) / 2)).

(** Modelled from the spec: the body of [BuildMerkleTree] is missing.
    Step 4: some even index [i] of the level has [level[i] == level[i+1]]. *)
Definition level_mutated (level : list uint256) : bool :=
  let n := length level in
  existsb (fun k => let i := (2 * k)%nat in nth i level 0 =? nth (i + 1) level 0)
          (seq 0 (n / 2)).

(** Modelled from the spec: the body of [BuildMerkleTree] is missing.
    Steps 2, 3 and 5: level 0 is the leaves, a level of length 1 is the
    root, and every level is retained. *)
Equations build_levels (level : list uint256) : list (list uint256)
  by wf (length level) lt :=
  build_levels level with le_lt_dec (length level) 1 := {
    | left _ => [level]
    | right Hlong => level :: build_levels (next_level level)
  }.
Next Obligation.
  unfold next_level. rewrite length_map, length_seq.
  apply Nat.Div0.div_lt_upper_bound. lia.
Qed.

(** Modelled from the spec: the body of [BuildMerkleTree] is missing.
    Step 1: the root of an empty leaf list is the digest of the empty byte
    string; otherwise it is the element of the final level. *)
Definition root_of (fullTree : list (list uint256)) : uint256 :=
  match last fullTree [] with
  | [r] => r
  | _ => digest []
  end.

(** Modelled from the spec: the body of [BuildMerkleTree] is missing.
    [buildTree(leafHashes) -> (root, mutationDetected, fullTree)]. *)
Definition buildTree (leafHashes : list uint256)
  : uint256 * bool * list (list uint256) :=
  let fullTree := build_levels leafHashes in
  (root_of fullTree, existsb level_mutated fullTree, fullTree).

(** Modelled from the spec: the body of [GetMerkleBranch] is missing.
    The sibling of index [i] at a level of length [n] is [i+1] or [i-1],
    clamped per the pairing rule: [i+1] clamped to [n-1] for an even [i],
    [i-1] for an odd one. *)
Definition sibling (n : nat) (i : nat) : nat :=
  if Nat.even i then Nat.min (i + 1) (n - 1) else (i - 1)%nat.

(** Modelled from the spec: the body of [GetMerkleBranch] is missing.
    The siblings along the path from index [i], for each level from the
    leaves to just below the root. *)
Fixpoint branch_from (levels : list (list uint256)) (i : nat) : list uint256 :=
  match levels with
  | [] => []
  | level :: above =>
      match above with
      | [] => []
      | _ :: _ => nth (sibling (length level) i) level 0 :: branch_from above (i / 2)
      end
  end.

(** Modelled from the spec: the body of [GetMerkleBranch] is missing.
    For each level from the leaves to just below the root, the sibling of
    the node on the path; the index is halved from level to level.  Fails
    with [IndexOutOfRange] for a negative index or one that is at least
    the number of leaves. *)
Definition getBranch (fullTree : list (list uint256)) (leafIndex : Z)
  : result (list uint256) :=
  if (leafIndex <? 0) || (Z.of_nat (length (hd [] fullTree)) <=? leafIndex)
  then Err IndexOutOfRange
  else Ok (branch_from fullTree (Z.to_nat leafIndex)).

(** Modelled from the spec: the body of [CheckMerkleBranch] is missing.
    A fold of the leaf hash with the branch; the current index is on the
    left when even, on the right when odd, and is halved at each level. *)
Fixpoint checkBranch (leafHash : uint256) (branch : list uint256) (leafIndex : Z)
  : uint256 :=
  match branch with
  | [] => leafHash
  | b :: rest =>
      checkBranch (if Z.even leafIndex then hash_pair leafHash b
                   else hash_pair b leafHash)
                  rest (leafIndex / 2)
  end.

End WithDigest.
End Merkle.

(** ** Concrete inputs *)

(** The header of the scenario of the spec, section 8, for a given Merkle
    root. *)
Definition scenario_header (merkleRoot : uint256) : CBlockHeader.t :=
  CBlockHeader.mk 4 0 merkleRoot 0 1600000000 0x1d00ffff 1 [].

(** A stand-in for the digest primitive, to run the Merkle engine. *)
Definition sample_digest (bs : list byte) : uint256 :=
  le_combine bs mod (2 ^ 256 - 189).

Definition sample_locator : CBlockLocator.t := CBlockLocator.mk [7; 8].

(** What a codec reads back from its own output, for the values [P]. *)
Definition reads_back {A : Type} (c : codec A) (P : A -> Prop) : Prop :=
  forall a rest, P a -> unser c (ser c a ++ rest) = Ok (a, rest).

(** What a codec answers to an input cut short inside its own output. *)
Definition fails_short {A : Type} (c : codec A) (P : A -> Prop) : Prop :=
  forall a k, P a -> (k < length (ser c a))%nat ->
              unser c (firstn k (ser c a)) = Err TruncatedInput.

(** A block with two transactions, each standing for its 4-byte encoding. *)
Definition sample_block : CBlock.t Z :=
  CBlock.mk (scenario_header 77) [5; 6] [9].

(** * Properties *)

(** ** Reading back what a primitive serializer wrote *)

Section PrimFacts.

Lemma read_bytes_app (bs rest : list byte) :
  read_bytes (length bs) (bs ++ rest) = Ok (bs, rest).
Proof.
  unfold read_bytes.
  replace (length bs <=? length (bs ++ rest))%nat with true.
  - rewrite firstn_app, Nat.sub_diag, firstn_all, firstn_O, app_nil_r.
    rewrite skipn_app, Nat.sub_diag, skipn_all. reflexivity.
  - symmetry. apply Nat.leb_le. rewrite length_app. lia.
Qed.

Lemma read_bytes_le_split (n : nat) (z : Z) (rest : list byte) :
  read_bytes n (le_split n z ++ rest) = Ok (le_split n z, rest).
Proof.
  rewrite <- (length_le_split n z) at 1. apply read_bytes_app.
Qed.

Lemma read_bytes_short (n : nat) (s : stream) :
  (length s < n)%nat -> read_bytes n s = Err TruncatedInput.
Proof.
  intros H. unfold read_bytes.
  destruct (Nat.leb_spec n (length s)); [lia | reflexivity].
Qed.

Lemma le_combine_le_split_small (n : nat) (z : Z) :
  0 <= z < 2 ^ (Z.of_nat n * 8) -> le_combine (le_split n z) = z.
Proof.
  intros H. rewrite le_combine_split. apply Z.mod_small. exact H.
Qed.

Lemma in_uint32_range (z : Z) : in_uint32 z = true -> 0 <= z < 2 ^ 32.
Proof. unfold in_uint32. intros H. apply andb_prop in H. lia. Qed.

Lemma in_uint256_range (z : Z) : in_uint256 z = true -> 0 <= z < 2 ^ 256.
Proof. unfold in_uint256. intros H. apply andb_prop in H. lia. Qed.

Lemma in_int32_range (z : Z) : in_int32 z = true -> - 2 ^ 31 <= z < 2 ^ 31.
Proof. unfold in_int32. intros H. apply andb_prop in H. lia. Qed.

Lemma fixed_unsigned_reads_back (n : nat) :
  reads_back (fixed_unsigned n) (fun z => 0 <= z < 2 ^ (Z.of_nat n * 8)).
Proof.
  intros z rest Hz. cbn [unser ser fixed_unsigned].
  rewrite read_bytes_le_split. cbn [rbind].
  rewrite le_combine_le_split_small by exact Hz. reflexivity.
Qed.

Lemma ser_uint32_reads_back : reads_back ser_uint32 (fun z => in_uint32 z = true).
Proof.
  intros z rest Hz. apply fixed_unsigned_reads_back.
  apply in_uint32_range in Hz. exact Hz.
Qed.

Lemma ser_uint256_reads_back : reads_back ser_uint256 (fun z => in_uint256 z = true).
Proof.
  intros z rest Hz. apply fixed_unsigned_reads_back.
  apply in_uint256_range in Hz. exact Hz.
Qed.

Lemma to_int32_wrap (z : Z) :
  - 2 ^ 31 <= z < 2 ^ 31 -> to_int32 (z mod 2 ^ 32) = z.
Proof.
  intros H. unfold to_int32.
  change (2 ^ 31) with 2147483648 in *. change (2 ^ 32) with 4294967296.
  destruct (Z.ltb_spec (z mod 4294967296) 2147483648) as [Hlt | Hge];
    Z.to_euclidean_division_equations; lia.
Qed.

Lemma ser_int32_reads_back : reads_back ser_int32 (fun z => in_int32 z = true).
Proof.
  intros z rest Hz. cbn [unser ser ser_int32].
  rewrite read_bytes_le_split. cbn [rbind].
  rewrite le_combine_split. change (Z.of_nat 4 * 8) with 32.
  rewrite to_int32_wrap by (apply in_int32_range; exact Hz). reflexivity.
Qed.

Lemma read_canonical_le_split (n : nat) (least z : Z) (rest : list byte) :
  least <= z < 2 ^ (Z.of_nat n * 8) ->
  0 <= least ->
  read_canonical n least (le_split n z ++ rest) = Ok (z, rest).
Proof.
  intros Hz Hl. unfold read_canonical.
  rewrite read_bytes_le_split. cbn [rbind].
  rewrite le_combine_le_split_small by lia.
  destruct (Z.ltb_spec z least); [lia | reflexivity].
Qed.

Lemma ReadCompactSize_WriteCompactSize (n : Z) (rest : list byte) :
  0 <= n <= MAX_SIZE ->
  ReadCompactSize (WriteCompactSize n ++ rest) = Ok (n, rest).
Proof.
  unfold MAX_SIZE. intros Hn. unfold WriteCompactSize, ReadCompactSize.
  assert (Hmax : (MAX_SIZE <? n) = false) by (apply Z.ltb_ge; unfold MAX_SIZE; lia).
  destruct (Z.ltb_spec n 253) as [H1 | H1].
  - rewrite read_bytes_le_split. cbn [rbind].
    rewrite le_combine_le_split_small by (change (2 ^ (Z.of_nat 1 * 8)) with 256; lia).
    destruct (Z.ltb_spec n 253); [| lia]. cbn [rbind]. rewrite Hmax. reflexivity.
  - destruct (Z.leb_spec n 65535) as [H2 | H2].
    + change (byte.of_Z 253 :: le_split 2 n) with (le_split 1 253 ++ le_split 2 n).
      rewrite <- app_assoc, read_bytes_le_split. cbn [rbind].
      change (le_combine (le_split 1 253)) with 253. cbv beta zeta.
      change (253 <? 253) with false. change (253 =? 253) with true. cbv iota.
      rewrite read_canonical_le_split
        by (change (2 ^ (Z.of_nat 2 * 8)) with 65536; lia).
      cbn [rbind]. rewrite Hmax. reflexivity.
    + destruct (Z.leb_spec n 4294967295) as [H3 | H3]; [| lia].
      change (byte.of_Z 254 :: le_split 4 n) with (le_split 1 254 ++ le_split 4 n).
      rewrite <- app_assoc, read_bytes_le_split. cbn [rbind].
      change (le_combine (le_split 1 254)) with 254. cbv beta zeta.
      change (254 <? 253) with false. change (254 =? 253) with false.
      change (254 =? 254) with true. cbv iota.
      rewrite read_canonical_le_split
        by (change (2 ^ (Z.of_nat 4 * 8)) with 4294967296; lia).
      cbn [rbind]. rewrite Hmax. reflexivity.
Qed.

Lemma WriteCompactSize_0 : WriteCompactSize 0 = [byte.of_Z 0].
Proof. reflexivity. Qed.

Lemma ser_bytes_reads_back :
  reads_back ser_bytes (fun v => (Z.of_nat (length v) <=? MAX_SIZE) = true).
Proof.
  intros v rest Hv. apply Z.leb_le in Hv. cbn [unser ser ser_bytes].
  rewrite <- app_assoc, ReadCompactSize_WriteCompactSize by lia. cbn [rbind].
  rewrite Nat2Z.id. apply read_bytes_app.
Qed.

End PrimFacts.

(** ** Running a [SerializationOp] *)

Section OpFacts.

Context {T : Type}.

Lemma READWRITE_write {A : Type} (c : codec A) (x : lens (frame T) A)
  (nType : Z) (fr : frame T) (s : stream) :
  READWRITE c x CSerActionSerialize nType fr s = (fr, s ++ ser c (get x fr)).
Proof. reflexivity. Qed.

Lemma seq_op_write (p q : Op T) (nType : Z) (fr : frame T) (s : stream) :
  (p ;;; q) CSerActionSerialize nType fr s =
  q CSerActionSerialize nType (fst (p CSerActionSerialize nType fr s))
    (snd (p CSerActionSerialize nType fr s)).
Proof. reflexivity. Qed.

Lemma READWRITE_read {A : Type} (c : codec A) (x : lens (frame T) A)
  (P : A -> Prop) (nType : Z) (fr : frame T) (a : A) (rest : stream) :
  reads_back c P -> P a ->
  READWRITE c x CSerActionUnserialize nType fr (ser c a ++ rest)
  = Ok (set x a fr, rest).
Proof.
  intros Hc Ha. cbn [READWRITE]. rewrite (Hc a rest Ha). reflexivity.
Qed.

Lemma READWRITE_read_then {A : Type} (c : codec A) (x : lens (frame T) A)
  (q : Op T) (P : A -> Prop) (nType : Z) (fr : frame T) (a : A) (rest : stream) :
  reads_back c P -> P a ->
  (READWRITE c x ;;; q) CSerActionUnserialize nType fr (ser c a ++ rest)
  = q CSerActionUnserialize nType (set x a fr) rest.
Proof.
  intros Hc Ha. unfold seq_op. rewrite (READWRITE_read c x P) by assumption.
  reflexivity.
Qed.

Lemma assign_then {A : Type} (x : lens (frame T) A) (e : frame T -> A)
  (q : Op T) (nType : Z) (fr : frame T) (s : stream) :
  (assign x e ;;; q) CSerActionUnserialize nType fr s
  = q CSerActionUnserialize nType (set x (e fr) fr) s.
Proof. reflexivity. Qed.

End OpFacts.

(** ** [CBlockHeader]: layout and round trip *)

Section CBlockHeaderFacts.

Import CBlockHeader.

Lemma valid_fields (h : t) :
  valid h = true ->
  in_int32 (nVersion h) = true /\ in_uint256 (hashPrevBlock h) = true /\
  in_uint256 (hashMerkleRoot h) = true /\ in_uint256 (hashReserved h) = true /\
  in_uint32 (nTime h) = true /\ in_uint32 (nBits h) = true /\
  in_uint256 (nNonce h) = true /\
  (Z.of_nat (length (nSolution h)) <=? MAX_SIZE) = true.
Proof.
  unfold valid. intros H.
  do 7 (apply andb_prop in H; destruct H as [H ?]). repeat split; assumption.
Qed.

Lemma Serialize_fields (h : t) (nType nVer : Z) :
  Serialize h nType nVer =
  ser ser_int32 (nVersion h) ++ ser ser_uint256 (hashPrevBlock h) ++
  ser ser_uint256 (hashMerkleRoot h) ++ ser ser_uint256 (hashReserved h) ++
  ser ser_uint32 (nTime h) ++ ser ser_uint32 (nBits h) ++
  ser ser_uint256 (nNonce h) ++ ser ser_bytes (nSolution h).
Proof.
  unfold Serialize, Serialize_with, SerializationOp.
  cbv [seq_op READWRITE assign obind oret member local_nVersion get set fst snd].
  rewrite app_nil_l, <- !app_assoc. reflexivity.
Qed.

Lemma Unserialize_Serialize (h obj : t) (rest : stream) (nType nVer nType' nVer' : Z) :
  valid h = true ->
  Unserialize obj (Serialize h nType nVer ++ rest) nType' nVer' = Ok (h, rest).
Proof.
  intros Hv. apply valid_fields in Hv.
  destruct Hv as (Hver & Hprev & Hroot & Hres & Htime & Hbits & Hnonce & Hsol).
  rewrite Serialize_fields, <- !app_assoc.
  unfold Unserialize, Unserialize_with, SerializationOp.
  rewrite (READWRITE_read_then _ _ _ _ _ _ _ _ ser_int32_reads_back Hver).
  rewrite assign_then.
  rewrite (READWRITE_read_then _ _ _ _ _ _ _ _ ser_uint256_reads_back Hprev).
  rewrite (READWRITE_read_then _ _ _ _ _ _ _ _ ser_uint256_reads_back Hroot).
  rewrite (READWRITE_read_then _ _ _ _ _ _ _ _ ser_uint256_reads_back Hres).
  rewrite (READWRITE_read_then _ _ _ _ _ _ _ _ ser_uint32_reads_back Htime).
  rewrite (READWRITE_read_then _ _ _ _ _ _ _ _ ser_uint32_reads_back Hbits).
  rewrite (READWRITE_read_then _ _ _ _ _ _ _ _ ser_uint256_reads_back Hnonce).
  rewrite (READWRITE_read _ _ _ _ _ _ _ ser_bytes_reads_back Hsol).
  destruct h, obj. reflexivity.
Qed.

Lemma Serialize_length (h : t) (nType nVer : Z) :
  length (Serialize h nType nVer) =
  (140 + length (WriteCompactSize (Z.of_nat (length (nSolution h))))
   + length (nSolution h))%nat.
Proof.
  rewrite Serialize_fields.
  cbn [ser ser_int32 ser_uint32 ser_uint256 fixed_unsigned ser_bytes].
  rewrite !length_app, !length_le_split. lia.
Qed.

End CBlockHeaderFacts.

(** ** The Merkle engine *)

Section MerkleFacts.

Import Merkle.
Variable digest : list byte -> uint256.

Local Abbreviation hash_pair := (hash_pair digest).
Local Abbreviation next_level := (next_level digest).
Local Abbreviation build_levels := (build_levels digest).
Local Abbreviation root_of := (root_of digest).
Local Abbreviation checkBranch := (checkBranch digest).

Lemma half_lt (k n : nat) : (k < n / 2 <-> 2 * k + 1 < n)%nat.
Proof.
  pose proof (Nat.div_mod_eq n 2) as E.
  pose proof (Nat.mod_upper_bound n 2 ltac:(lia)) as B. lia.
Qed.

Lemma half_up_lt (k n : nat) : (k < (n + 1) / 2 <-> 2 * k < n)%nat.
Proof.
  pose proof (Nat.div_mod_eq (n + 1) 2) as E.
  pose proof (Nat.mod_upper_bound (n + 1) 2 ltac:(lia)) as B. lia.
Qed.

Lemma even_double (i : nat) : Nat.even i = true -> i = (2 * (i / 2))%nat.
Proof.
  intros H. apply Nat.even_spec in H. destruct H as [m ->].
  rewrite Nat.mul_comm, Nat.div_mul by lia. lia.
Qed.

Lemma odd_double (i : nat) : Nat.even i = false -> i = (2 * (i / 2) + 1)%nat.
Proof.
  intros H. rewrite <- Nat.negb_odd in H. apply negb_false_iff in H.
  apply Nat.odd_spec in H. destruct H as [m ->].
  replace ((2 * m + 1) / 2)%nat with m; [reflexivity |].
  apply (Nat.div_unique _ 2 m 1); lia.
Qed.

(** *** Levels *)

Lemma length_next_level (level : list uint256) :
  length (next_level level) = ((length level + 1) / 2)%nat.
Proof. unfold Merkle.next_level. rewrite length_map, length_seq. reflexivity. Qed.

Lemma nth_next_level (level : list uint256) (k : nat) :
  (2 * k < length level)%nat ->
  nth k (next_level level) 0 =
  hash_pair (nth (2 * k) level 0)
            (nth (Nat.min (2 * k + 1) (length level - 1)) level 0).
Proof.
  intros Hk. apply half_up_lt in Hk. unfold Merkle.next_level.
  set (f := fun k : nat => _).
  rewrite (nth_indep _ 0 (f 0%nat)) by (rewrite length_map, length_seq; exact Hk).
  rewrite map_nth, seq_nth by exact Hk. reflexivity.
Qed.

Lemma build_levels_unfold (level : list uint256) :
  build_levels level =
  match le_lt_dec (length level) 1 with
  | left _ => [level]
  | right _ => level :: build_levels (next_level level)
  end.
Proof.
  rewrite build_levels_equation_1.
  destruct (le_lt_dec (length level) 1); reflexivity.
Qed.

Lemma build_levels_cons (level : list uint256) :
  exists above, build_levels level = level :: above.
Proof.
  rewrite build_levels_unfold.
  destruct (le_lt_dec (length level) 1); eexists; reflexivity.
Qed.

Lemma build_levels_hd (level : list uint256) : hd [] (build_levels level) = level.
Proof. destruct (build_levels_cons level) as [above ->]. reflexivity. Qed.

Lemma last_cons_cons {A : Type} (a b : A) (l : list A) (d : A) :
  last (a :: b :: l) d = last (b :: l) d.
Proof. reflexivity. Qed.

Lemma root_of_cons (level : list uint256) (levels : list (list uint256)) :
  levels <> [] -> root_of (level :: levels) = root_of levels.
Proof.
  intros H. destruct levels as [| l ls]; [congruence |].
  unfold Merkle.root_of. rewrite last_cons_cons. reflexivity.
Qed.

Lemma build_levels_last (level : list uint256) :
  level <> [] -> exists r, last (build_levels level) [] = [r].
Proof.
  funelim (build_levels level); intros Hne.
  - destruct level as [| r [| x rest]]; cbn in l; try congruence; try lia.
    exists r. reflexivity.
  - destruct (build_levels_cons (next_level level)) as [above E].
    destruct H as [r Hr].
    + intros Hnil. apply (f_equal (@length _)) in Hnil.
      rewrite length_next_level in Hnil. cbn [length] in Hnil.
      pose proof (proj2 (half_up_lt 0 (length level)) ltac:(lia)). lia.
    + exists r. rewrite E in *. rewrite last_cons_cons. exact Hr.
Qed.

(** *** The mutation flag *)

Lemma level_mutated_spec (level : list uint256) :
  level_mutated level = true <->
  exists i a, Nat.even i = true /\
              nth_error level i = Some a /\ nth_error level (S i) = Some a.
Proof.
  unfold level_mutated. rewrite existsb_exists. split.
  - intros (k & Hin & Heq). apply in_seq in Hin. apply Z.eqb_eq in Heq.
    assert (Hk : (2 * k + 1 < length level)%nat) by (apply half_lt; lia).
    exists (2 * k)%nat, (nth (2 * k) level 0). split; [| split].
    + rewrite Nat.even_mul. reflexivity.
    + apply nth_error_nth'. lia.
    + rewrite Heq. replace (S (2 * k)) with (2 * k + 1)%nat by lia.
      apply nth_error_nth'. lia.
  - intros (i & a & Hev & Hi & HSi).
    assert (Hlt : (S i < length level)%nat)
      by (apply nth_error_Some; congruence).
    pose proof (even_double i Hev) as Ei.
    exists (i / 2)%nat. split.
    + apply in_seq. split; [lia |]. cbn [Nat.add]. apply half_lt. lia.
    + apply Z.eqb_eq. rewrite <- Ei.
      rewrite (nth_error_nth level i 0 Hi).
      replace (i + 1)%nat with (S i) by lia.
      rewrite (nth_error_nth level (S i) 0 HSi). reflexivity.
Qed.

Lemma level_mutated_long (level : list uint256) :
  level_mutated level = true -> (2 <= length level)%nat.
Proof.
  intros H. apply level_mutated_spec in H. destruct H as (i & a & _ & _ & HSi).
  assert (S i < length level)%nat by (apply nth_error_Some; congruence). lia.
Qed.

(** *** Branches *)

Lemma parity_of_nat (i : nat) : Z.even (Z.of_nat i) = Nat.even i.
Proof.
  destruct (Nat.even i) eqn:E.
  - apply even_double in E. rewrite E, Nat2Z.inj_mul. apply Z.even_mul.
  - apply odd_double in E. rewrite E, Nat2Z.inj_add, Nat2Z.inj_mul.
    rewrite Z.even_add, Z.even_mul. reflexivity.
Qed.

Lemma fold_step (level : list uint256) (i : nat) :
  (1 < length level)%nat -> (i < length level)%nat ->
  (if Z.even (Z.of_nat i)
   then hash_pair (nth i level 0) (nth (sibling (length level) i) level 0)
   else hash_pair (nth (sibling (length level) i) level 0) (nth i level 0))
  = nth (i / 2) (next_level level) 0.
Proof.
  intros Hlong Hi. rewrite parity_of_nat. unfold sibling.
  destruct (Nat.even i) eqn:E.
  - pose proof (even_double i E) as Ei.
    rewrite nth_next_level by lia. rewrite <- Ei. reflexivity.
  - pose proof (odd_double i E) as Ei.
    rewrite nth_next_level by lia. rewrite <- Ei.
    replace (i - 1)%nat with (2 * (i / 2))%nat by lia.
    rewrite Nat.min_l by lia. reflexivity.
Qed.

Lemma branch_from_cons (level : list uint256) (above : list (list uint256)) (i : nat) :
  above <> [] ->
  branch_from (level :: above) i =
  nth (sibling (length level) i) level 0 :: branch_from above (i / 2).
Proof. destruct above; [congruence | reflexivity]. Qed.

Lemma checkBranch_build_levels (level : list uint256) :
  forall i : nat, (i < length level)%nat ->
  checkBranch (nth i level 0) (branch_from (build_levels level) i) (Z.of_nat i)
  = root_of (build_levels level).
Proof.
  funelim (build_levels level); intros i Hi.
  - destruct level as [| r [| x rest]]; cbn in l, Hi; try lia.
    replace i with 0%nat by lia. reflexivity.
  - destruct (build_levels_cons (next_level level)) as [above E].
    rewrite root_of_cons by (rewrite E; discriminate).
    rewrite branch_from_cons by (rewrite E; discriminate).
    cbn [Merkle.checkBranch].
    rewrite fold_step by assumption.
    replace (Z.of_nat i / 2) with (Z.of_nat (i / 2))
      by (rewrite Nat2Z.inj_div; reflexivity).
    apply H. rewrite length_next_level. apply half_up_lt.
    pose proof (Nat.Div0.mul_div_le i 2). lia.
Qed.

(** *** The testable properties of the spec, section 8 *)

Lemma buildTree_single_leaf (x : uint256) :
  buildTree digest [x] = (x, false, [[x]]).
Proof.
  unfold buildTree. rewrite build_levels_unfold. reflexivity.
Qed.

Lemma buildTree_two_leaves (a b : uint256) :
  a <> b ->
  buildTree digest [a; b] = (hash_pair a b, false, [[a; b]; [hash_pair a b]]).
Proof.
  intros Hab. unfold buildTree.
  rewrite build_levels_unfold. cbn [length le_lt_dec nat_rec nat_rect sumbool_rec sumbool_rect].
  change (next_level [a; b]) with [hash_pair a b].
  rewrite build_levels_unfold. cbn [length le_lt_dec nat_rec nat_rect sumbool_rec sumbool_rect].
  unfold Merkle.root_of. cbn [last existsb]. unfold level_mutated at 2.
  cbn [length Nat.div Nat.divmod fst seq existsb orb].
  unfold level_mutated. cbn [length Nat.div Nat.divmod fst seq existsb orb Nat.mul Nat.add nth].
  destruct (Z.eqb_spec a b); [contradiction | reflexivity].
Qed.

Lemma buildTree_duplicated_last (a b c : uint256) :
  fst (fst (buildTree digest [a; b; c])) = fst (fst (buildTree digest [a; b; c; c])) /\
  snd (fst (buildTree digest [a; b; c; c])) = true.
Proof.
  unfold buildTree. cbn [fst snd].
  assert (E3 : build_levels [a; b; c] =
               [[a; b; c]; [hash_pair a b; hash_pair c c];
                [hash_pair (hash_pair a b) (hash_pair c c)]]).
  { rewrite build_levels_unfold. cbn [length le_lt_dec nat_rec nat_rect sumbool_rec sumbool_rect].
    change (next_level [a; b; c]) with [hash_pair a b; hash_pair c c].
    rewrite build_levels_unfold. cbn [length le_lt_dec nat_rec nat_rect sumbool_rec sumbool_rect].
    change (next_level [hash_pair a b; hash_pair c c])
      with [hash_pair (hash_pair a b) (hash_pair c c)].
    rewrite build_levels_unfold. reflexivity. }
  assert (E4 : build_levels [a; b; c; c] =
               [[a; b; c; c]; [hash_pair a b; hash_pair c c];
                [hash_pair (hash_pair a b) (hash_pair c c)]]).
  { rewrite build_levels_unfold. cbn [length le_lt_dec nat_rec nat_rect sumbool_rec sumbool_rect].
    change (next_level [a; b; c; c]) with [hash_pair a b; hash_pair c c].
    rewrite build_levels_unfold. cbn [length le_lt_dec nat_rec nat_rect sumbool_rec sumbool_rect].
    change (next_level [hash_pair a b; hash_pair c c])
      with [hash_pair (hash_pair a b) (hash_pair c c)].
    rewrite build_levels_unfold. reflexivity. }
  rewrite E3, E4. split; [reflexivity |].
  cbn [existsb]. apply orb_true_iff. left.
  apply level_mutated_spec. exists 2%nat, c. repeat split.
Qed.

End MerkleFacts.

(** ** [CEquihashInput]: layout *)

Section CEquihashInputFacts.

Lemma CEquihashInput_Serialize_fields (h : CBlockHeader.t) (nType nVer : Z) :
  CEquihashInput.Serialize (CEquihashInput.of_header h) nType nVer =
  le_split 4 (CBlockHeader.nVersion h) ++
  le_split 32 (CBlockHeader.hashPrevBlock h) ++
  le_split 32 (CBlockHeader.hashMerkleRoot h) ++
  le_split 32 (CBlockHeader.hashReserved h) ++
  le_split 4 (CBlockHeader.nTime h) ++
  le_split 4 (CBlockHeader.nBits h).
Proof.
  unfold CEquihashInput.Serialize, Serialize_with, CEquihashInput.SerializationOp.
  cbv [seq_op READWRITE assign obind oret CEquihashInput.inherited member
       local_nVersion get set fst snd CEquihashInput.of_header CEquihashInput.set_base
       CEquihashInput.base].
  rewrite app_nil_l, <- !app_assoc. reflexivity.
Qed.

Lemma CEquihashInput_Serialize_length (h : CBlockHeader.t) (nType nVer : Z) :
  length (CEquihashInput.Serialize (CEquihashInput.of_header h) nType nVer) = 108%nat.
Proof.
  rewrite CEquihashInput_Serialize_fields, !length_app, !length_le_split.
  reflexivity.
Qed.

Lemma CBlockHeader_Serialize_split (h : CBlockHeader.t) (nType nVer : Z) :
  CBlockHeader.Serialize h nType nVer =
  CEquihashInput.Serialize (CEquihashInput.of_header h) nType nVer ++
  le_split 32 (CBlockHeader.nNonce h) ++
  ser ser_bytes (CBlockHeader.nSolution h).
Proof.
  rewrite Serialize_fields, CEquihashInput_Serialize_fields, <- !app_assoc.
  reflexivity.
Qed.

End CEquihashInputFacts.

(** * The claims *)

(** C1.  For every valid header [h], the full encoding writes version,
    prevBlockHash, merkleRoot, reservedHash, time, bits, nonce and the
    length-prefixed solution in that order, and decoding it gives [h] back,
    whatever object is decoded into and whatever follows in the stream;
    in particular [decodeFull (encodeFull h) = h]. *)
Theorem CBlockHeader_full_roundtrip
  (h obj : CBlockHeader.t) (rest : stream) (nType nVer : Z) :
  CBlockHeader.valid h = true ->
  CBlockHeader.Serialize h nType nVer =
    le_split 4 (CBlockHeader.nVersion h) ++
    le_split 32 (CBlockHeader.hashPrevBlock h) ++
    le_split 32 (CBlockHeader.hashMerkleRoot h) ++
    le_split 32 (CBlockHeader.hashReserved h) ++
    le_split 4 (CBlockHeader.nTime h) ++
    le_split 4 (CBlockHeader.nBits h) ++
    le_split 32 (CBlockHeader.nNonce h) ++
    (WriteCompactSize (Z.of_nat (length (CBlockHeader.nSolution h))) ++
     CBlockHeader.nSolution h) /\
  CBlockHeader.Unserialize obj (CBlockHeader.Serialize h nType nVer ++ rest) nType nVer
    = Ok (h, rest) /\
  CBlockHeader.Unserialize CBlockHeader.ctor (CBlockHeader.Serialize h nType nVer) nType nVer
    = Ok (h, []).
Proof.
  intros Hv. split; [| split].
  - apply Serialize_fields.
  - apply Unserialize_Serialize. exact Hv.
  - rewrite <- (app_nil_r (CBlockHeader.Serialize h nType nVer)).
    apply Unserialize_Serialize. exact Hv.
Qed.

Lemma CBlockHeader_full_roundtrip_witness :
  CBlockHeader.valid (scenario_header 77) = true /\
  CBlockHeader.Unserialize CBlockHeader.ctor
    (CBlockHeader.Serialize (scenario_header 77) SER_NETWORK 0) SER_NETWORK 0
  = Ok (scenario_header 77, []).
Proof.
  split.
  - reflexivity.
  - apply (CBlockHeader_full_roundtrip (scenario_header 77) CBlockHeader.ctor []
             SER_NETWORK 0).
    reflexivity.
Defined.

(** C2, as stated: the restricted encoding is the first 140 bytes of the
    full one.  It is not: for the scenario header it has 108 bytes. *)
Lemma CEquihashInput_not_first_140 :
  CBlockHeader.valid (scenario_header 77) = true /\
  CEquihashInput.Serialize (CEquihashInput.of_header (scenario_header 77)) SER_NETWORK 0
  <> firstn 140 (CBlockHeader.Serialize (scenario_header 77) SER_NETWORK 0).
Proof.
  split; [reflexivity |].
  intros H. apply (f_equal (@length _)) in H. vm_compute in H. discriminate H.
Qed.

(** C2, amended.  For every header, the restricted encoding is
    byte-identical to the first 108 bytes of the full encoding
    (4 + 32 + 32 + 32 + 4 + 4): the same fields in the same representation,
    stopping just before the nonce, which with the solution makes up the
    rest of the full encoding; the 140 bytes of [HEADER_SIZE] are these 108
    and the 32 of the nonce. *)
Theorem CEquihashInput_prefix_108 (h : CBlockHeader.t) (nType nVer : Z) :
  CEquihashInput.Serialize (CEquihashInput.of_header h) nType nVer
    = firstn 108 (CBlockHeader.Serialize h nType nVer) /\
  length (CEquihashInput.Serialize (CEquihashInput.of_header h) nType nVer) = 108%nat /\
  CBlockHeader.Serialize h nType nVer =
    CEquihashInput.Serialize (CEquihashInput.of_header h) nType nVer ++
    le_split 32 (CBlockHeader.nNonce h) ++
    ser ser_bytes (CBlockHeader.nSolution h) /\
  CBlockHeader.HEADER_SIZE = 108 + 32.
Proof.
  pose proof (CEquihashInput_Serialize_length h nType nVer) as L.
  pose proof (CBlockHeader_Serialize_split h nType nVer) as F.
  split; [| split; [| split]]; [| exact L | exact F | reflexivity].
  rewrite F, <- L.
  rewrite firstn_app, Nat.sub_diag, firstn_all, firstn_O, app_nil_r. reflexivity.
Qed.

(** C3.  [buildTree] sets the mutation flag exactly when some level of the
    tree, of length at least 2, has an even index [i] with
    [level[i] == level[i+1]].  Whatever the flag, the tree starts at the
    leaves and the root is returned: the digest of the empty string for no
    leaves, the element of the final level otherwise. *)
Theorem buildTree_mutationDetected
  (digest : list byte -> uint256) (leafHashes : list uint256) :
  let '(root, mutationDetected, fullTree) := Merkle.buildTree digest leafHashes in
  (mutationDetected = true <->
   exists level i a,
     In level fullTree /\ (2 <= length level)%nat /\ Nat.even i = true /\
     nth_error level i = Some a /\ nth_error level (S i) = Some a) /\
  hd [] fullTree = leafHashes /\
  ((leafHashes = [] /\ root = digest []) \/ last fullTree [] = [root]).
Proof.
  unfold Merkle.buildTree. cbv zeta. split; [| split].
  - rewrite existsb_exists. split.
    + intros (level & Hin & Hm). pose proof (level_mutated_long level Hm) as Hlen.
      apply level_mutated_spec in Hm. destruct Hm as (i & a & Hm).
      exists level, i, a. tauto.
    + intros (level & i & a & Hin & _ & Hm). exists level. split; [exact Hin |].
      apply level_mutated_spec. exists i, a. exact Hm.
  - apply build_levels_hd.
  - destruct leafHashes as [| x rest].
    + left. split; reflexivity.
    + right. destruct (build_levels_last digest (x :: rest)) as [r Hr]; [discriminate |].
      unfold Merkle.root_of. rewrite Hr. reflexivity.
Qed.

(** C4.  For every leaf list and every leaf index [i] with
    [0 <= i < number of leaves] (so the list is not empty), [getBranch]
    returns a branch, and replaying it from leaf [i] gives the root of the
    tree. *)
Theorem checkBranch_getBranch
  (digest : list byte -> uint256) (leafHashes : list uint256) (i : Z) :
  0 <= i < Z.of_nat (length leafHashes) ->
  let '(root, _, fullTree) := Merkle.buildTree digest leafHashes in
  exists branch,
    Merkle.getBranch fullTree i = Ok branch /\
    Merkle.checkBranch digest (nth (Z.to_nat i) leafHashes 0) branch i = root.
Proof.
  intros Hi. unfold Merkle.buildTree. cbv zeta.
  exists (Merkle.branch_from (Merkle.build_levels digest leafHashes) (Z.to_nat i)).
  split.
  - unfold Merkle.getBranch. rewrite build_levels_hd.
    destruct (Z.ltb_spec i 0); [lia |].
    destruct (Z.leb_spec (Z.of_nat (length leafHashes)) i); [lia |]. reflexivity.
  - pose proof (checkBranch_build_levels digest leafHashes (Z.to_nat i)) as H.
    rewrite Z2Nat.id in H by lia. apply H. lia.
Qed.

Lemma checkBranch_getBranch_witness :
  0 <= 2 < Z.of_nat (length [1; 2; 3]) /\
  let '(root, _, fullTree) := Merkle.buildTree sample_digest [1; 2; 3] in
  exists branch,
    Merkle.getBranch fullTree 2 = Ok branch /\
    Merkle.checkBranch sample_digest (nth (Z.to_nat 2) [1; 2; 3] 0) branch 2 = root.
Proof.
  split.
  - cbn. lia.
  - apply (checkBranch_getBranch sample_digest [1; 2; 3] 2). cbn. lia.
Defined.

(** C5.  [SetNull] gives the null header: version [CURRENT_VERSION], which
    is 4, and every other field zero or empty; the result is null; and a
    header is null exactly when its [nBits] is 0, whatever its other
    fields. *)
Theorem CBlockHeader_SetNull_IsNull (h : CBlockHeader.t) :
  CBlockHeader.SetNull h = CBlockHeader.mk CBlockHeader.CURRENT_VERSION 0 0 0 0 0 0 [] /\
  CBlockHeader.CURRENT_VERSION = 4 /\
  CBlockHeader.IsNull (CBlockHeader.SetNull h) = true /\
  (CBlockHeader.IsNull h = true <-> CBlockHeader.nBits h = 0).
Proof.
  repeat split.
  - unfold CBlockHeader.IsNull. apply Z.eqb_eq.
  - unfold CBlockHeader.IsNull. apply Z.eqb_eq.
Qed.

(** C6, as stated: the scenario header encodes to exactly 172 bytes.  It
    does not. *)
Lemma scenario_header_not_172 :
  in_uint256 77 = true /\
  length (CBlockHeader.Serialize (scenario_header 77) SER_NETWORK 0) <> 172%nat.
Proof.
  split; [reflexivity |]. vm_compute. discriminate.
Qed.

(** C6, amended.  The scenario header, for any Merkle root, encodes to
    exactly 141 bytes, [HEADER_SIZE] and one: the 108 bytes of the fields
    before the nonce, the 32 bytes of the nonce and the one-byte marker of
    the empty solution; and it decodes back to the same header. *)
Theorem scenario_header_141 (merkleRoot : uint256) (nType nVer : Z) :
  in_uint256 merkleRoot = true ->
  length (CBlockHeader.Serialize (scenario_header merkleRoot) nType nVer) = 141%nat /\
  141 = CBlockHeader.HEADER_SIZE + 1 /\
  CBlockHeader.Serialize (scenario_header merkleRoot) nType nVer =
    CEquihashInput.Serialize (CEquihashInput.of_header (scenario_header merkleRoot))
      nType nVer ++ le_split 32 1 ++ [byte.of_Z 0] /\
  length (CEquihashInput.Serialize (CEquihashInput.of_header (scenario_header merkleRoot))
            nType nVer) = 108%nat /\
  CBlockHeader.Unserialize CBlockHeader.ctor
    (CBlockHeader.Serialize (scenario_header merkleRoot) nType nVer) nType nVer
  = Ok (scenario_header merkleRoot, []).
Proof.
  intros Hroot. split; [| split; [| split; [| split]]].
  - rewrite Serialize_length. reflexivity.
  - reflexivity.
  - apply CBlockHeader_Serialize_split.
  - apply CEquihashInput_Serialize_length.
  - rewrite <- (app_nil_r (CBlockHeader.Serialize _ nType nVer)).
    apply Unserialize_Serialize.
    unfold CBlockHeader.valid, scenario_header. cbn [CBlockHeader.nVersion
      CBlockHeader.hashPrevBlock CBlockHeader.hashMerkleRoot CBlockHeader.hashReserved
      CBlockHeader.nTime CBlockHeader.nBits CBlockHeader.nNonce CBlockHeader.nSolution].
    rewrite Hroot. reflexivity.
Qed.

Lemma scenario_header_141_witness :
  in_uint256 77 = true /\
  length (CBlockHeader.Serialize (scenario_header 77) SER_NETWORK 0) = 141%nat.
Proof.
  split.
  - reflexivity.
  - apply (scenario_header_141 77 SER_NETWORK 0). reflexivity.
Defined.

(** C7.  For a negative leaf index, or one that is at least the number of
    leaves, [getBranch] fails with [IndexOutOfRange] and returns no
    branch. *)
Theorem getBranch_IndexOutOfRange
  (digest : list byte -> uint256) (leafHashes : list uint256) (leafIndex : Z) :
  leafIndex < 0 \/ Z.of_nat (length leafHashes) <= leafIndex ->
  let '(_, _, fullTree) := Merkle.buildTree digest leafHashes in
  Merkle.getBranch fullTree leafIndex = Err IndexOutOfRange /\
  forall branch, Merkle.getBranch fullTree leafIndex <> Ok branch.
Proof.
  intros Hout. unfold Merkle.buildTree. cbv zeta.
  assert (E : Merkle.getBranch (Merkle.build_levels digest leafHashes) leafIndex
              = Err IndexOutOfRange).
  { unfold Merkle.getBranch. rewrite build_levels_hd.
    destruct (Z.ltb_spec leafIndex 0); [reflexivity |].
    destruct (Z.leb_spec (Z.of_nat (length leafHashes)) leafIndex); [reflexivity | lia]. }
  split; [exact E |]. intros branch. rewrite E. discriminate.
Qed.

Lemma getBranch_IndexOutOfRange_witness :
  (3 < 0 \/ Z.of_nat (length [1; 2; 3]) <= 3) /\
  Merkle.getBranch (snd (Merkle.buildTree sample_digest [1; 2; 3])) 3
  = Err IndexOutOfRange.
Proof.
  split.
  - right. cbn. lia.
  - apply (getBranch_IndexOutOfRange sample_digest [1; 2; 3] 3). right. cbn. lia.
Defined.

(** C8, as stated: the legacy header has a null-check by [headerHash]
    emptiness.  [ABlockHeader] declares no [IsNull]. *)
Lemma ABlockHeader_no_IsNull :
  ~ exists isNull,
      op_isNull ABlockHeader_ops = Some isNull /\
      forall h, isNull h = uint256_IsNull (ABlockHeader.headerHash h).
Proof.
  intros (isNull & H & _). discriminate H.
Qed.

(** C8, amended.  The legacy header has three of the four operations: the
    full encoding is the 32-byte [headerHash], the 32-byte nonce and the
    length-prefixed solution; the restricted encoding is the 32-byte
    [headerHash] alone; [SetNull] zeroes the hash and the nonce and empties
    the solution, which leaves a null [headerHash].  It has no null-check of
    its own, where the primary header has all four operations. *)
Theorem ABlockHeader_operations (h : ABlockHeader.t) (nType nVer : Z) :
  (exists encodeFull,
     op_encodeFull ABlockHeader_ops = Some encodeFull /\
     encodeFull h nType nVer =
       le_split 32 (ABlockHeader.headerHash h) ++
       le_split 32 (ABlockHeader.nNonce h) ++
       (WriteCompactSize (Z.of_nat (length (ABlockHeader.nSolution h))) ++
        ABlockHeader.nSolution h)) /\
  (exists encodeRestricted,
     op_encodeRestricted ABlockHeader_ops = Some encodeRestricted /\
     encodeRestricted h nType nVer = le_split 32 (ABlockHeader.headerHash h) /\
     Z.of_nat (length (encodeRestricted h nType nVer)) = ABlockHeader.HEADER_SIZE) /\
  (exists clear,
     op_clear ABlockHeader_ops = Some clear /\
     clear h = ABlockHeader.mk 0 0 [] /\
     uint256_IsNull (ABlockHeader.headerHash (clear h)) = true) /\
  op_isNull ABlockHeader_ops = None /\
  op_isNull CBlockHeader_ops = Some CBlockHeader.IsNull.
Proof.
  split; [| split; [| split; [| split]]].
  - exists ABlockHeader.Serialize. split; [reflexivity |].
    unfold ABlockHeader.Serialize, Serialize_with, ABlockHeader.SerializationOp.
    cbv [seq_op READWRITE obind member get set fst snd].
    rewrite app_nil_l, <- !app_assoc. reflexivity.
  - eexists. split; [reflexivity |].
    assert (E : AEquihashInput.Serialize (AEquihashInput.of_header h) nType nVer
                = le_split 32 (ABlockHeader.headerHash h)) by reflexivity.
    split; [exact E |]. rewrite E, length_le_split. reflexivity.
  - exists ABlockHeader.SetNull. repeat split.
  - reflexivity.
  - reflexivity.
Qed.

(** C9.  The locator's encoding starts with the 4-byte version exactly when
    the type flags do not have [SER_GETHASH], the purpose of hashing; in
    both modes the encoding of the hash sequence follows, each hash on 32
    bytes, in order.  A locator is null exactly when the sequence is
    empty. *)
Theorem CBlockLocator_encoding (l : CBlockLocator.t) (nType nVer : Z) :
  CBlockLocator.Serialize l nType nVer =
    (if truthy (Z.land nType SER_GETHASH) then [] else le_split 4 nVer) ++
    ser (ser_vector ser_uint256) (CBlockLocator.vHave l) /\
  length (le_split 4 nVer) = 4%nat /\
  ser (ser_vector ser_uint256) (CBlockLocator.vHave l) =
    WriteCompactSize (Z.of_nat (length (CBlockLocator.vHave l))) ++
    concat (map (le_split 32) (CBlockLocator.vHave l)) /\
  Forall (fun bs => length bs = 32%nat) (map (le_split 32) (CBlockLocator.vHave l)) /\
  truthy (Z.land SER_GETHASH SER_GETHASH) = true /\
  truthy (Z.land SER_NETWORK SER_GETHASH) = false /\
  truthy (Z.land SER_DISK SER_GETHASH) = false /\
  (CBlockLocator.IsNull l = true <-> CBlockLocator.vHave l = []).
Proof.
  split; [| split; [| split; [| split; [| split; [| split; [| split]]]]]].
  - unfold CBlockLocator.Serialize, Serialize_with, CBlockLocator.SerializationOp.
    cbv [seq_op when_nType READWRITE obind oret member local_nVersion get set fst snd].
    destruct (truthy (Z.land nType SER_GETHASH)); reflexivity.
  - apply length_le_split.
  - reflexivity.
  - apply Forall_forall. intros bs Hin. apply in_map_iff in Hin.
    destruct Hin as (x & <- & _). apply length_le_split.
  - reflexivity.
  - reflexivity.
  - reflexivity.
  - unfold CBlockLocator.IsNull. destruct (CBlockLocator.vHave l); split;
      intros H; try reflexivity; discriminate H.
Qed.

(** C10.  A block constructed from a header [h] projects back to [h], in
    all eight fields, and its transaction list and Merkle tree cache are
    empty. *)
Theorem GetBlockHeader_of_header (CTransaction : Type) (h : CBlockHeader.t) :
  CBlock.GetBlockHeader (CBlock.of_header CTransaction h) = h /\
  CBlock.vtx (CBlock.of_header CTransaction h) = [] /\
  CBlock.vMerkleTree (CBlock.of_header CTransaction h) = [].
Proof.
  destruct h. repeat split.
Qed.

(** * Further properties of the code *)

(** ** More on the primitive serializers *)

Section MorePrimFacts.

Lemma read_items_concat {A : Type} (c : codec A) (P : A -> Prop) (v : list A)
  (rest : stream) :
  reads_back c P -> Forall P v ->
  read_items c (length v) (concat (map (ser c) v) ++ rest) = Ok (v, rest).
Proof.
  intros Hc Hv. induction Hv as [| a v Ha Hv IH]; [reflexivity |].
  cbn [length map concat read_items]. rewrite <- app_assoc.
  rewrite (Hc a _ Ha). cbn [rbind]. rewrite IH. reflexivity.
Qed.

Lemma ser_vector_reads_back {A : Type} (c : codec A) (P : A -> Prop) :
  reads_back c P ->
  reads_back (ser_vector c)
             (fun v => Forall P v /\ (Z.of_nat (length v) <=? MAX_SIZE) = true).
Proof.
  intros Hc v rest [Hv Hlen]. apply Z.leb_le in Hlen. cbn [unser ser ser_vector].
  rewrite <- app_assoc, ReadCompactSize_WriteCompactSize by lia. cbn [rbind].
  rewrite Nat2Z.id. apply (read_items_concat c P); assumption.
Qed.

Lemma firstn_app_short {A : Type} (k : nat) (l rest : list A) :
  (k <= length l)%nat -> firstn k (l ++ rest) = firstn k l.
Proof.
  intros H. rewrite firstn_app. replace (k - length l)%nat with 0%nat by lia.
  rewrite firstn_O, app_nil_r. reflexivity.
Qed.

Lemma firstn_app_long {A : Type} (k : nat) (l rest : list A) :
  (length l <= k)%nat -> firstn k (l ++ rest) = l ++ firstn (k - length l) rest.
Proof.
  intros H. rewrite firstn_app, firstn_all2 by exact H. reflexivity.
Qed.

Lemma read_bytes_firstn_short (n k : nat) (bs : list byte) :
  (k < n)%nat -> read_bytes n (firstn k bs) = Err TruncatedInput.
Proof.
  intros H. apply read_bytes_short. rewrite length_firstn. lia.
Qed.

Lemma fixed_unsigned_fails_short (n : nat) (P : Z -> Prop) :
  fails_short (fixed_unsigned n) P.
Proof.
  intros z k _ Hk. cbn [unser ser fixed_unsigned] in *.
  rewrite length_le_split in Hk. rewrite read_bytes_firstn_short by exact Hk.
  reflexivity.
Qed.

Lemma ser_int32_fails_short (P : Z -> Prop) : fails_short ser_int32 P.
Proof.
  intros z k _ Hk. cbn [unser ser ser_int32] in *.
  rewrite length_le_split in Hk. rewrite read_bytes_firstn_short by exact Hk.
  reflexivity.
Qed.

Lemma read_canonical_short (n k : nat) (least : Z) (bs : list byte) :
  (k < n)%nat -> read_canonical n least (firstn k bs) = Err TruncatedInput.
Proof.
  intros H. unfold read_canonical. rewrite read_bytes_firstn_short by exact H.
  reflexivity.
Qed.

Lemma length_WriteCompactSize (n : Z) :
  length (WriteCompactSize n) =
  if n <? 253 then 1%nat
  else if n <=? 0xFFFF then 3%nat
  else if n <=? 0xFFFFFFFF then 5%nat else 9%nat.
Proof.
  unfold WriteCompactSize.
  destruct (n <? 253); [reflexivity |].
  destruct (n <=? 65535); [reflexivity |].
  destruct (n <=? 4294967295); reflexivity.
Qed.

Lemma ReadCompactSize_short (n : Z) (k : nat) :
  (k < length (WriteCompactSize n))%nat ->
  ReadCompactSize (firstn k (WriteCompactSize n)) = Err TruncatedInput.
Proof.
  intros Hk. destruct k as [| k]; [reflexivity |].
  unfold WriteCompactSize in *.
  destruct (n <? 253).
  { rewrite length_le_split in Hk. lia. }
  assert (Hmarker : forall m bs,
            (k < length bs)%nat -> (m = 253 \/ m = 254 \/ m = 255) ->
            (m = 253 -> length bs = 2%nat) -> (m = 254 -> length bs = 4%nat) ->
            (m = 255 -> length bs = 8%nat) ->
            ReadCompactSize (firstn (S k) (byte.of_Z m :: bs)) = Err TruncatedInput).
  { intros m bs Hlt Hm H2 H4 H8. cbn [firstn]. unfold ReadCompactSize.
    change (byte.of_Z m :: firstn k bs) with ([byte.of_Z m] ++ firstn k bs).
    rewrite (read_bytes_app [byte.of_Z m]). cbn [rbind].
    destruct Hm as [-> | [-> | ->]].
    - change (le_combine [byte.of_Z 253]) with 253. cbv beta zeta.
      change (253 <? 253) with false. change (253 =? 253) with true. cbv iota.
      rewrite read_canonical_short by (specialize (H2 eq_refl); lia). reflexivity.
    - change (le_combine [byte.of_Z 254]) with 254. cbv beta zeta.
      change (254 <? 253) with false. change (254 =? 253) with false.
      change (254 =? 254) with true. cbv iota.
      rewrite read_canonical_short by (specialize (H4 eq_refl); lia). reflexivity.
    - change (le_combine [byte.of_Z 255]) with 255. cbv beta zeta.
      change (255 <? 253) with false. change (255 =? 253) with false.
      change (255 =? 254) with false. cbv iota.
      rewrite read_canonical_short by (specialize (H8 eq_refl); lia). reflexivity. }
  destruct (n <=? 65535); [| destruct (n <=? 4294967295)];
    cbn [length] in Hk; rewrite length_le_split in Hk;
    apply Hmarker; rewrite ?length_le_split; auto; try lia; intros; discriminate.
Qed.

Lemma ser_bytes_fails_short :
  fails_short ser_bytes (fun v => (Z.of_nat (length v) <=? MAX_SIZE) = true).
Proof.
  intros v k Hv Hk. apply Z.leb_le in Hv. cbn [unser ser ser_bytes] in *.
  rewrite length_app in Hk.
  destruct (Nat.lt_ge_cases k (length (WriteCompactSize (Z.of_nat (length v)))))
    as [Hshort | Hlong].
  - rewrite firstn_app_short by lia. rewrite ReadCompactSize_short by exact Hshort.
    reflexivity.
  - rewrite firstn_app_long by exact Hlong.
    rewrite ReadCompactSize_WriteCompactSize by lia. cbn [rbind].
    rewrite Nat2Z.id. apply read_bytes_firstn_short. lia.
Qed.

End MorePrimFacts.

(** ** More on running a [SerializationOp] *)

Section MoreOpFacts.

Context {T : Type}.

Lemma READWRITE_short {A : Type} (c : codec A) (x : lens (frame T) A)
  (P : A -> Prop) (nType : Z) (fr : frame T) (a : A) (k : nat) :
  fails_short c P -> P a -> (k < length (ser c a))%nat ->
  READWRITE c x CSerActionUnserialize nType fr (firstn k (ser c a))
  = Err TruncatedInput.
Proof.
  intros Hs Ha Hk. cbn [READWRITE]. rewrite (Hs a k Ha Hk). reflexivity.
Qed.

Lemma READWRITE_short_then {A : Type} (c : codec A) (x : lens (frame T) A)
  (q : Op T) (P : A -> Prop) (nType : Z) (fr : frame T) (a : A)
  (rest : stream) (k : nat) :
  reads_back c P -> fails_short c P -> P a ->
  (forall fr' k', (k' < length rest)%nat ->
     q CSerActionUnserialize nType fr' (firstn k' rest) = Err TruncatedInput) ->
  (k < length (ser c a ++ rest))%nat ->
  (READWRITE c x ;;; q) CSerActionUnserialize nType fr (firstn k (ser c a ++ rest))
  = Err TruncatedInput.
Proof.
  intros Hc Hs Ha Hq Hk. rewrite length_app in Hk.
  destruct (Nat.lt_ge_cases k (length (ser c a))) as [Hshort | Hlong].
  - rewrite firstn_app_short by lia. unfold seq_op.
    rewrite (READWRITE_short c x P) by assumption. reflexivity.
  - rewrite firstn_app_long by exact Hlong.
    rewrite (READWRITE_read_then c x q P) by assumption.
    apply Hq. lia.
Qed.

End MoreOpFacts.

(** One field read of a truncated input: the cut is inside the field, or
    the field is read and the cut is further on. *)
Ltac short_step Hc Hs Ha :=
  let fr := fresh "fr" in
  let k := fresh "k" in
  intros fr k;
  refine (READWRITE_short_then _ _ _ _ _ fr _ _ k Hc (Hs _) Ha _);
  clear fr k.

(** ** [CBlockHeader]: distinct encodings, sizes and truncated input *)

Section MoreCBlockHeaderFacts.

Import CBlockHeader.

Lemma SerializationOp_write (h : t) (nType nVer : Z) (s : stream) :
  SerializationOp CSerActionSerialize nType (h, nVer) s
  = ((h, nVersion h), s ++ Serialize h nType nVer).
Proof.
  rewrite Serialize_fields.
  unfold SerializationOp.
  cbv [seq_op READWRITE assign obind oret member local_nVersion get set fst snd].
  rewrite <- !app_assoc. reflexivity.
Qed.

Lemma SerializationOp_read (h obj : t) (rest : stream) (nType nVer nType' nVer' : Z) :
  valid h = true ->
  SerializationOp CSerActionUnserialize nType' (obj, nVer')
    (Serialize h nType nVer ++ rest)
  = Ok ((h, nVersion h), rest).
Proof.
  intros Hv. apply valid_fields in Hv.
  destruct Hv as (Hver & Hprev & Hroot & Hres & Htime & Hbits & Hnonce & Hsol).
  rewrite Serialize_fields, <- !app_assoc.
  unfold SerializationOp.
  rewrite (READWRITE_read_then _ _ _ _ _ _ _ _ ser_int32_reads_back Hver).
  rewrite assign_then.
  rewrite (READWRITE_read_then _ _ _ _ _ _ _ _ ser_uint256_reads_back Hprev).
  rewrite (READWRITE_read_then _ _ _ _ _ _ _ _ ser_uint256_reads_back Hroot).
  rewrite (READWRITE_read_then _ _ _ _ _ _ _ _ ser_uint256_reads_back Hres).
  rewrite (READWRITE_read_then _ _ _ _ _ _ _ _ ser_uint32_reads_back Htime).
  rewrite (READWRITE_read_then _ _ _ _ _ _ _ _ ser_uint32_reads_back Hbits).
  rewrite (READWRITE_read_then _ _ _ _ _ _ _ _ ser_uint256_reads_back Hnonce).
  rewrite (READWRITE_read _ _ _ _ _ _ _ ser_bytes_reads_back Hsol).
  destruct h, obj. reflexivity.
Qed.

Lemma SerializationOp_short (h : t) (fr : frame t) (k : nat) (nType nVer nType' : Z) :
  valid h = true ->
  (k < length (Serialize h nType nVer))%nat ->
  SerializationOp CSerActionUnserialize nType' fr (firstn k (Serialize h nType nVer))
  = Err TruncatedInput.
Proof.
  intros Hv. apply valid_fields in Hv.
  destruct Hv as (Hver & Hprev & Hroot & Hres & Htime & Hbits & Hnonce & Hsol).
  rewrite Serialize_fields. unfold SerializationOp. revert fr k.
  short_step ser_int32_reads_back ser_int32_fails_short Hver.
  intros fr k Hk. rewrite assign_then. revert k Hk.
  generalize (set local_nVersion (nVersion (fst fr)) fr). clear fr.
  short_step ser_uint256_reads_back (fixed_unsigned_fails_short 32) Hprev.
  short_step ser_uint256_reads_back (fixed_unsigned_fails_short 32) Hroot.
  short_step ser_uint256_reads_back (fixed_unsigned_fails_short 32) Hres.
  short_step ser_uint32_reads_back (fixed_unsigned_fails_short 4) Htime.
  short_step ser_uint32_reads_back (fixed_unsigned_fails_short 4) Hbits.
  short_step ser_uint256_reads_back (fixed_unsigned_fails_short 32) Hnonce.
  intros fr k Hk. apply (READWRITE_short _ _ _ _ _ _ _ ser_bytes_fails_short Hsol Hk).
Qed.

End MoreCBlockHeaderFacts.

(** X1.  No valid header's encoding is a prefix of another's: when two
    encodings of valid headers, each followed by anything, are the same
    bytes, the headers are equal and so is what follows. *)
Theorem CBlockHeader_Serialize_prefix_free
  (h1 h2 : CBlockHeader.t) (r1 r2 : stream) (nType1 nVer1 nType2 nVer2 : Z) :
  CBlockHeader.valid h1 = true ->
  CBlockHeader.valid h2 = true ->
  CBlockHeader.Serialize h1 nType1 nVer1 ++ r1
    = CBlockHeader.Serialize h2 nType2 nVer2 ++ r2 ->
  h1 = h2 /\ r1 = r2.
Proof.
  intros Hv1 Hv2 E.
  pose proof (Unserialize_Serialize h1 CBlockHeader.ctor r1 nType1 nVer1 0 0 Hv1) as R1.
  pose proof (Unserialize_Serialize h2 CBlockHeader.ctor r2 nType2 nVer2 0 0 Hv2) as R2.
  rewrite E, R2 in R1. injection R1 as -> ->. split; reflexivity.
Qed.

Lemma CBlockHeader_Serialize_prefix_free_witness :
  CBlockHeader.valid (scenario_header 77) = true /\
  CBlockHeader.Serialize (scenario_header 77) SER_NETWORK 0 ++ []
    = CBlockHeader.Serialize (scenario_header 77) SER_GETHASH 1 ++ [] /\
  (scenario_header 77 = scenario_header 77 /\ @nil byte = []).
Proof.
  split; [reflexivity |]. split; [reflexivity |].
  apply (CBlockHeader_Serialize_prefix_free (scenario_header 77) (scenario_header 77)
           [] [] SER_NETWORK 0 SER_GETHASH 1); reflexivity.
Defined.

(** X2.  Reading a valid header's encoding cut short at any point fails
    with [TruncatedInput], whatever object is read into. *)
Theorem CBlockHeader_Unserialize_truncated
  (h obj : CBlockHeader.t) (k : nat) (nType nVer nType' nVer' : Z) :
  CBlockHeader.valid h = true ->
  (k < length (CBlockHeader.Serialize h nType nVer))%nat ->
  CBlockHeader.Unserialize obj (firstn k (CBlockHeader.Serialize h nType nVer))
    nType' nVer'
  = Err TruncatedInput.
Proof.
  intros Hv Hk. unfold CBlockHeader.Unserialize, Unserialize_with.
  rewrite (SerializationOp_short h (obj, nVer') k nType nVer nType' Hv Hk).
  reflexivity.
Qed.

Lemma CBlockHeader_Unserialize_truncated_witness :
  CBlockHeader.valid (scenario_header 77) = true /\
  Nat.lt 140 (length (CBlockHeader.Serialize (scenario_header 77) SER_NETWORK 0)) /\
  CBlockHeader.Unserialize CBlockHeader.ctor
    (firstn 140 (CBlockHeader.Serialize (scenario_header 77) SER_NETWORK 0))
    SER_NETWORK 0
  = Err TruncatedInput.
Proof.
  split; [reflexivity |]. split; [vm_compute; unfold Nat.lt; lia |].
  apply (CBlockHeader_Unserialize_truncated (scenario_header 77) CBlockHeader.ctor 140
           SER_NETWORK 0 SER_NETWORK 0).
  - reflexivity.
  - vm_compute. lia.
Defined.

(** X3.  The full encoding of any header has [HEADER_SIZE] bytes, then the
    length prefix of the solution, of 1, 3, 5 or 9 bytes by the solution's
    length, then the solution. *)
Theorem CBlockHeader_Serialize_size (h : CBlockHeader.t) (nType nVer : Z) :
  Z.of_nat (length (CBlockHeader.Serialize h nType nVer)) =
  CBlockHeader.HEADER_SIZE +
  (if Z.of_nat (length (CBlockHeader.nSolution h)) <? 253 then 1
   else if Z.of_nat (length (CBlockHeader.nSolution h)) <=? 0xFFFF then 3
   else if Z.of_nat (length (CBlockHeader.nSolution h)) <=? 0xFFFFFFFF then 5
   else 9) +
  Z.of_nat (length (CBlockHeader.nSolution h)).
Proof.
  rewrite Serialize_length, length_WriteCompactSize.
  unfold CBlockHeader.HEADER_SIZE.
  destruct (Z.of_nat (length (CBlockHeader.nSolution h)) <? 253); [lia |].
  destruct (Z.of_nat (length (CBlockHeader.nSolution h)) <=? 65535); [lia |].
  destruct (Z.of_nat (length (CBlockHeader.nSolution h)) <=? 4294967295); lia.
Qed.

(** ** [CEquihashInput]: reading *)

Section MoreCEquihashInputFacts.

(** The header an Equihash input is read into: the six fields of [h], the
    nonce and the solution of the object [e]. *)
Lemma CEquihashInput_Unserialize_Serialize
  (h : CBlockHeader.t) (e : CEquihashInput.t) (rest : stream)
  (nType nVer nType' nVer' : Z) :
  CBlockHeader.valid h = true ->
  CEquihashInput.Unserialize e
    (CEquihashInput.Serialize (CEquihashInput.of_header h) nType nVer ++ rest)
    nType' nVer'
  = Ok (CEquihashInput.mk
          (CBlockHeader.mk (CBlockHeader.nVersion h) (CBlockHeader.hashPrevBlock h)
             (CBlockHeader.hashMerkleRoot h) (CBlockHeader.hashReserved h)
             (CBlockHeader.nTime h) (CBlockHeader.nBits h)
             (CBlockHeader.nNonce (CEquihashInput.base e))
             (CBlockHeader.nSolution (CEquihashInput.base e))),
        rest).
Proof.
  intros Hv. apply valid_fields in Hv.
  destruct Hv as (Hver & Hprev & Hroot & Hres & Htime & Hbits & _ & _).
  rewrite CEquihashInput_Serialize_fields, <- !app_assoc.
  unfold CEquihashInput.Unserialize, Unserialize_with, CEquihashInput.SerializationOp.
  change (le_split 4 (CBlockHeader.nVersion h))
    with (ser ser_int32 (CBlockHeader.nVersion h)).
  rewrite (READWRITE_read_then _ _ _ _ _ _ _ _ ser_int32_reads_back Hver).
  rewrite assign_then.
  change (le_split 32 (CBlockHeader.hashPrevBlock h))
    with (ser ser_uint256 (CBlockHeader.hashPrevBlock h)).
  rewrite (READWRITE_read_then _ _ _ _ _ _ _ _ ser_uint256_reads_back Hprev).
  change (le_split 32 (CBlockHeader.hashMerkleRoot h))
    with (ser ser_uint256 (CBlockHeader.hashMerkleRoot h)).
  rewrite (READWRITE_read_then _ _ _ _ _ _ _ _ ser_uint256_reads_back Hroot).
  change (le_split 32 (CBlockHeader.hashReserved h))
    with (ser ser_uint256 (CBlockHeader.hashReserved h)).
  rewrite (READWRITE_read_then _ _ _ _ _ _ _ _ ser_uint256_reads_back Hres).
  change (le_split 4 (CBlockHeader.nTime h))
    with (ser ser_uint32 (CBlockHeader.nTime h)).
  rewrite (READWRITE_read_then _ _ _ _ _ _ _ _ ser_uint32_reads_back Htime).
  change (le_split 4 (CBlockHeader.nBits h))
    with (ser ser_uint32 (CBlockHeader.nBits h)).
  rewrite (READWRITE_read _ _ _ _ _ _ _ ser_uint32_reads_back Hbits).
  destruct e as [[]]. reflexivity.
Qed.

End MoreCEquihashInputFacts.

(** X4.  Reading the Equihash input of a valid header [h] into an object
    sets that object's six leading fields to those of [h] and keeps the
    nonce and the solution the object had. *)
Theorem CEquihashInput_read_keeps_nonce_and_solution
  (h : CBlockHeader.t) (e : CEquihashInput.t) (rest : stream)
  (nType nVer nType' nVer' : Z) :
  CBlockHeader.valid h = true ->
  CEquihashInput.Unserialize e
    (CEquihashInput.Serialize (CEquihashInput.of_header h) nType nVer ++ rest)
    nType' nVer'
  = Ok (CEquihashInput.mk
          (CBlockHeader.set_nSolution (CBlockHeader.nSolution (CEquihashInput.base e))
             (CBlockHeader.set_nNonce (CBlockHeader.nNonce (CEquihashInput.base e)) h)),
        rest).
Proof.
  intros Hv. rewrite CEquihashInput_Unserialize_Serialize by exact Hv. reflexivity.
Qed.

Lemma CEquihashInput_read_keeps_nonce_and_solution_witness :
  CBlockHeader.valid (scenario_header 77) = true /\
  CEquihashInput.Unserialize
    (CEquihashInput.of_header (CBlockHeader.mk 4 0 0 0 0 0 99 [byte.of_Z 7]))
    (CEquihashInput.Serialize (CEquihashInput.of_header (scenario_header 77))
       SER_NETWORK 0 ++ [])
    SER_NETWORK 0
  = Ok (CEquihashInput.mk
          (CBlockHeader.mk 4 0 77 0 1600000000 0x1d00ffff 99 [byte.of_Z 7]), []).
Proof.
  split; [reflexivity |].
  apply (CEquihashInput_read_keeps_nonce_and_solution (scenario_header 77)
           (CEquihashInput.of_header (CBlockHeader.mk 4 0 0 0 0 0 99 [byte.of_Z 7]))
           [] SER_NETWORK 0 SER_NETWORK 0).
  reflexivity.
Defined.

(** X5.  Two valid headers have the same Equihash input exactly when they
    agree on version, previous block hash, Merkle root, reserved hash, time
    and bits; the nonce and the solution play no part. *)
Theorem CEquihashInput_same_input
  (h1 h2 : CBlockHeader.t) (nType1 nVer1 nType2 nVer2 : Z) :
  CBlockHeader.valid h1 = true ->
  CBlockHeader.valid h2 = true ->
  (CEquihashInput.Serialize (CEquihashInput.of_header h1) nType1 nVer1
     = CEquihashInput.Serialize (CEquihashInput.of_header h2) nType2 nVer2
   <->
   CBlockHeader.nVersion h1 = CBlockHeader.nVersion h2 /\
   CBlockHeader.hashPrevBlock h1 = CBlockHeader.hashPrevBlock h2 /\
   CBlockHeader.hashMerkleRoot h1 = CBlockHeader.hashMerkleRoot h2 /\
   CBlockHeader.hashReserved h1 = CBlockHeader.hashReserved h2 /\
   CBlockHeader.nTime h1 = CBlockHeader.nTime h2 /\
   CBlockHeader.nBits h1 = CBlockHeader.nBits h2).
Proof.
  intros Hv1 Hv2. split.
  - intros E.
    pose proof (CEquihashInput_Unserialize_Serialize h1
                  (CEquihashInput.of_header CBlockHeader.ctor) [] nType1 nVer1 0 0 Hv1)
      as R1.
    pose proof (CEquihashInput_Unserialize_Serialize h2
                  (CEquihashInput.of_header CBlockHeader.ctor) [] nType2 nVer2 0 0 Hv2)
      as R2.
    rewrite E, R2 in R1. injection R1 as -> -> -> -> -> ->. repeat split.
  - intros (E1 & E2 & E3 & E4 & E5 & E6).
    rewrite !CEquihashInput_Serialize_fields, E1, E2, E3, E4, E5, E6. reflexivity.
Qed.

Lemma CEquihashInput_same_input_witness :
  CBlockHeader.valid (scenario_header 77) = true /\
  CBlockHeader.valid (CBlockHeader.set_nNonce 5 (scenario_header 77)) = true /\
  CEquihashInput.Serialize (CEquihashInput.of_header (scenario_header 77)) SER_NETWORK 0
  = CEquihashInput.Serialize
      (CEquihashInput.of_header (CBlockHeader.set_nNonce 5 (scenario_header 77)))
      SER_NETWORK 0.
Proof.
  split; [reflexivity |]. split; [reflexivity |].
  apply (CEquihashInput_same_input (scenario_header 77)
           (CBlockHeader.set_nNonce 5 (scenario_header 77))
           SER_NETWORK 0 SER_NETWORK 0); try reflexivity.
  repeat split.
Defined.

(** ** [CBlock] *)

Section MoreCBlockFacts.

Variable CTransaction : Type.
Variable ser_tx : Z -> Z -> codec CTransaction.

Lemma CBlock_Serialize_fields (b : CBlock.t CTransaction) (nType nVer : Z) :
  CBlock.Serialize ser_tx b nType nVer =
  CBlockHeader.Serialize (CBlock.base b) nType nVer ++
  ser (ser_vector (ser_tx nType nVer)) (CBlock.vtx b).
Proof.
  unfold CBlock.Serialize, Serialize_with, CBlock.SerializationOp.
  cbv [seq_op READWRITE_obj READWRITE_with READWRITE obind member get set fst snd].
  rewrite SerializationOp_write. reflexivity.
Qed.

End MoreCBlockFacts.

(** X6.  The header of any block, whatever its transactions and Merkle
    cache, is its base header in all eight fields; and a block built back
    from that header is the block itself exactly when the block has no
    transaction and no cached tree. *)
Theorem CBlock_GetBlockHeader_base (CTransaction : Type) (b : CBlock.t CTransaction) :
  CBlock.GetBlockHeader b = CBlock.base b /\
  (CBlock.of_header CTransaction (CBlock.GetBlockHeader b) = b <->
   CBlock.vtx b = [] /\ CBlock.vMerkleTree b = []).
Proof.
  assert (E : CBlock.GetBlockHeader b = CBlock.base b).
  { destruct b as [[] txs cache]. reflexivity. }
  split; [exact E |]. rewrite E. destruct b as [hd txs cache].
  cbn [CBlock.base CBlock.vtx CBlock.vMerkleTree]. split.
  - intros H. injection H as <- <-. split; reflexivity.
  - intros [-> ->]. reflexivity.
Qed.

(** X7.  [SetNull] turns any block into the freshly constructed one: a null
    header, no transaction and no cached tree. *)
Theorem CBlock_SetNull_ctor (CTransaction : Type) (b : CBlock.t CTransaction) :
  CBlock.SetNull b = CBlock.ctor CTransaction /\
  CBlockHeader.IsNull (CBlock.base (CBlock.SetNull b)) = true /\
  CBlock.base (CBlock.SetNull b) = CBlockHeader.ctor /\
  CBlock.vtx (CBlock.SetNull b) = [] /\
  CBlock.vMerkleTree (CBlock.SetNull b) = [].
Proof.
  destruct b as [hd txs cache]. repeat split.
Qed.

(** X8.  A block's encoding is its header's full encoding, then the count
    of transactions as a compact size, then each transaction in order; the
    cached Merkle tree is not part of it. *)
Theorem CBlock_Serialize_layout (CTransaction : Type)
  (ser_tx : Z -> Z -> codec CTransaction) (b : CBlock.t CTransaction)
  (nType nVer : Z) :
  CBlock.Serialize ser_tx b nType nVer =
    CBlockHeader.Serialize (CBlock.base b) nType nVer ++
    WriteCompactSize (Z.of_nat (length (CBlock.vtx b))) ++
    concat (map (ser (ser_tx nType nVer)) (CBlock.vtx b)) /\
  forall cache,
    CBlock.Serialize ser_tx (CBlock.mk (CBlock.base b) (CBlock.vtx b) cache) nType nVer
    = CBlock.Serialize ser_tx b nType nVer.
Proof.
  split.
  - apply CBlock_Serialize_fields.
  - intros cache. rewrite !CBlock_Serialize_fields. reflexivity.
Qed.

(** X9.  When transactions read back from their own encoding, reading a
    block's encoding into an object gives the block's header and
    transactions, and leaves the object's cached Merkle tree as it was. *)
Theorem CBlock_Unserialize_keeps_cache (CTransaction : Type)
  (ser_tx : Z -> Z -> codec CTransaction) (P : CTransaction -> Prop)
  (b obj : CBlock.t CTransaction) (rest : stream) (nType nVer : Z) :
  reads_back (ser_tx nType nVer) P ->
  CBlockHeader.valid (CBlock.base b) = true ->
  Forall P (CBlock.vtx b) ->
  (Z.of_nat (length (CBlock.vtx b)) <=? MAX_SIZE) = true ->
  CBlock.Unserialize ser_tx obj (CBlock.Serialize ser_tx b nType nVer ++ rest)
    nType nVer
  = Ok (CBlock.mk (CBlock.base b) (CBlock.vtx b) (CBlock.vMerkleTree obj), rest).
Proof.
  intros Htx Hv Hall Hlen.
  rewrite CBlock_Serialize_fields, <- app_assoc.
  unfold CBlock.Unserialize, Unserialize_with, CBlock.SerializationOp.
  unfold seq_op at 1. cbn [obind READWRITE_obj].
  cbn [member get set fst snd].
  rewrite SerializationOp_read by exact Hv. cbn [rbind fst snd].
  unfold READWRITE_with. cbn [snd].
  rewrite (READWRITE_read _ _ _ _ _ _ _ (ser_vector_reads_back _ P Htx)
             (conj Hall Hlen)).
  reflexivity.
Qed.

Lemma CBlock_Unserialize_keeps_cache_witness :
  CBlockHeader.valid (CBlock.base sample_block) = true /\
  (Z.of_nat (length (CBlock.vtx sample_block)) <=? MAX_SIZE) = true /\
  CBlock.Unserialize (fun _ _ => ser_uint32) (CBlock.mk CBlockHeader.ctor [] [3; 4])
    (CBlock.Serialize (fun _ _ => ser_uint32) sample_block SER_NETWORK 0 ++ [])
    SER_NETWORK 0
  = Ok (CBlock.mk (scenario_header 77) [5; 6] [3; 4], []).
Proof.
  split; [reflexivity |]. split; [reflexivity |].
  apply (CBlock_Unserialize_keeps_cache Z (fun _ _ => ser_uint32)
           (fun z => in_uint32 z = true) sample_block
           (CBlock.mk CBlockHeader.ctor [] [3; 4]) [] SER_NETWORK 0).
  - exact ser_uint32_reads_back.
  - reflexivity.
  - repeat constructor.
  - reflexivity.
Defined.

(** ** [CBlockLocator]: reading *)

Section MoreCBlockLocatorFacts.

Lemma int32_reads_back_any (v : Z) (rest : stream) :
  unser ser_int32 (ser ser_int32 v ++ rest)
  = Ok (to_int32 (v mod 2 ^ 32), rest).
Proof.
  cbn [unser ser ser_int32]. rewrite read_bytes_le_split. cbn [rbind].
  rewrite le_combine_split. reflexivity.
Qed.

End MoreCBlockLocatorFacts.

(** X10.  A locator whose hashes are 256-bit values reads back from its own
    encoding in either mode, with or without the version prefix, when it is
    read in the mode it was written in; the version read is dropped. *)
Theorem CBlockLocator_roundtrip
  (l obj : CBlockLocator.t) (rest : stream) (nType nVer nVer' : Z) :
  Forall (fun x => in_uint256 x = true) (CBlockLocator.vHave l) ->
  (Z.of_nat (length (CBlockLocator.vHave l)) <=? MAX_SIZE) = true ->
  CBlockLocator.Unserialize obj (CBlockLocator.Serialize l nType nVer ++ rest)
    nType nVer'
  = Ok (l, rest).
Proof.
  intros Hall Hlen.
  assert (E : CBlockLocator.Serialize l nType nVer =
              (if truthy (Z.land nType SER_GETHASH) then [] else ser ser_int32 nVer) ++
              ser (ser_vector ser_uint256) (CBlockLocator.vHave l)).
  { unfold CBlockLocator.Serialize, Serialize_with, CBlockLocator.SerializationOp.
    cbv [seq_op when_nType READWRITE obind oret member local_nVersion get set fst snd].
    destruct (truthy (Z.land nType SER_GETHASH)); reflexivity. }
  rewrite E. clear E.
  unfold CBlockLocator.Unserialize, Unserialize_with, CBlockLocator.SerializationOp.
  unfold seq_op, when_nType.
  destruct (truthy (Z.land nType SER_GETHASH)); cbn [negb obind oret rbind fst snd].
  - rewrite app_nil_l.
    rewrite (READWRITE_read _ _ _ _ _ _ _
               (ser_vector_reads_back _ _ ser_uint256_reads_back) (conj Hall Hlen)).
    destruct l. reflexivity.
  - rewrite <- app_assoc. cbn [READWRITE]. rewrite int32_reads_back_any.
    cbn [rbind fst snd].
    rewrite (ser_vector_reads_back _ _ ser_uint256_reads_back _ _ (conj Hall Hlen)).
    destruct l. reflexivity.
Qed.

Lemma CBlockLocator_roundtrip_witness :
  (Z.of_nat (length (CBlockLocator.vHave sample_locator)) <=? MAX_SIZE) = true /\
  CBlockLocator.Unserialize (CBlockLocator.mk [])
    (CBlockLocator.Serialize sample_locator SER_NETWORK 170002 ++ [])
    SER_NETWORK 0
  = Ok (sample_locator, []) /\
  CBlockLocator.Unserialize (CBlockLocator.mk [])
    (CBlockLocator.Serialize sample_locator SER_GETHASH 170002 ++ [])
    SER_GETHASH 0
  = Ok (sample_locator, []).
Proof.
  split; [reflexivity |]. split.
  - apply (CBlockLocator_roundtrip sample_locator (CBlockLocator.mk []) []
             SER_NETWORK 170002 0); [repeat constructor | reflexivity].
  - apply (CBlockLocator_roundtrip sample_locator (CBlockLocator.mk []) []
             SER_GETHASH 170002 0); [repeat constructor | reflexivity].
Defined.

(** ** [ABlockHeader], [AEquihashInput] and [ABlock] *)

Section MoreABlockHeaderFacts.

Import ABlockHeader.

Lemma ABlockHeader_valid_fields (h : t) :
  valid h = true ->
  in_uint256 (headerHash h) = true /\ in_uint256 (nNonce h) = true /\
  (Z.of_nat (length (nSolution h)) <=? MAX_SIZE) = true.
Proof.
  unfold valid. intros H.
  do 2 (apply andb_prop in H; destruct H as [H ?]). repeat split; assumption.
Qed.

Lemma ABlockHeader_Serialize_fields (h : t) (nType nVer : Z) :
  Serialize h nType nVer =
  ser ser_uint256 (headerHash h) ++ ser ser_uint256 (nNonce h) ++
  ser ser_bytes (nSolution h).
Proof.
  unfold Serialize, Serialize_with, SerializationOp.
  cbv [seq_op READWRITE obind member get set fst snd].
  rewrite app_nil_l, <- !app_assoc. reflexivity.
Qed.

Lemma ABlockHeader_op_write (h : t) (nType nVer : Z) (s : stream) :
  SerializationOp CSerActionSerialize nType (h, nVer) s
  = ((h, nVer), s ++ Serialize h nType nVer).
Proof.
  rewrite ABlockHeader_Serialize_fields. unfold SerializationOp.
  cbv [seq_op READWRITE obind member get set fst snd].
  rewrite <- !app_assoc. reflexivity.
Qed.

Lemma ABlockHeader_op_read (h obj : t) (rest : stream) (nType nVer nType' nVer' : Z) :
  valid h = true ->
  SerializationOp CSerActionUnserialize nType' (obj, nVer')
    (Serialize h nType nVer ++ rest)
  = Ok ((h, nVer'), rest).
Proof.
  intros Hv. apply ABlockHeader_valid_fields in Hv. destruct Hv as (Hhash & Hnonce & Hsol).
  rewrite ABlockHeader_Serialize_fields, <- !app_assoc. unfold SerializationOp.
  rewrite (READWRITE_read_then _ _ _ _ _ _ _ _ ser_uint256_reads_back Hhash).
  rewrite (READWRITE_read_then _ _ _ _ _ _ _ _ ser_uint256_reads_back Hnonce).
  rewrite (READWRITE_read _ _ _ _ _ _ _ ser_bytes_reads_back Hsol).
  destruct h, obj. reflexivity.
Qed.

End MoreABlockHeaderFacts.

(** X11.  A valid legacy header (hash and nonce 256-bit values, solution
    within the size ceiling) reads back from its own encoding, whatever
    object is read into and whatever follows in the stream. *)
Theorem ABlockHeader_roundtrip
  (h obj : ABlockHeader.t) (rest : stream) (nType nVer nType' nVer' : Z) :
  ABlockHeader.valid h = true ->
  ABlockHeader.Unserialize obj (ABlockHeader.Serialize h nType nVer ++ rest)
    nType' nVer'
  = Ok (h, rest).
Proof.
  intros Hv. unfold ABlockHeader.Unserialize, Unserialize_with.
  rewrite ABlockHeader_op_read by exact Hv. reflexivity.
Qed.

Lemma ABlockHeader_roundtrip_witness :
  ABlockHeader.valid (ABlockHeader.mk 11 12 [byte.of_Z 1; byte.of_Z 2]) = true /\
  ABlockHeader.Unserialize ABlockHeader.ctor
    (ABlockHeader.Serialize (ABlockHeader.mk 11 12 [byte.of_Z 1; byte.of_Z 2])
       SER_NETWORK 0 ++ [byte.of_Z 9])
    SER_NETWORK 0
  = Ok (ABlockHeader.mk 11 12 [byte.of_Z 1; byte.of_Z 2], [byte.of_Z 9]).
Proof.
  split; [reflexivity |].
  apply (ABlockHeader_roundtrip (ABlockHeader.mk 11 12 [byte.of_Z 1; byte.of_Z 2])
           ABlockHeader.ctor [byte.of_Z 9] SER_NETWORK 0 SER_NETWORK 0).
  reflexivity.
Defined.

(** X12.  Reading a valid legacy header's encoding cut short at any point
    fails with [TruncatedInput]. *)
Theorem ABlockHeader_Unserialize_truncated
  (h obj : ABlockHeader.t) (k : nat) (nType nVer nType' nVer' : Z) :
  ABlockHeader.valid h = true ->
  (k < length (ABlockHeader.Serialize h nType nVer))%nat ->
  ABlockHeader.Unserialize obj (firstn k (ABlockHeader.Serialize h nType nVer))
    nType' nVer'
  = Err TruncatedInput.
Proof.
  intros Hv. apply ABlockHeader_valid_fields in Hv. destruct Hv as (Hhash & Hnonce & Hsol).
  rewrite ABlockHeader_Serialize_fields.
  unfold ABlockHeader.Unserialize, Unserialize_with, ABlockHeader.SerializationOp.
  intros Hk.
  assert (E : forall (fr : frame ABlockHeader.t) (k : nat),
            (k < length (ser ser_uint256 (ABlockHeader.headerHash h) ++
                         ser ser_uint256 (ABlockHeader.nNonce h) ++
                         ser ser_bytes (ABlockHeader.nSolution h)))%nat ->
            (READWRITE ser_uint256
               (member ABlockHeader.headerHash ABlockHeader.set_headerHash) ;;;
             READWRITE ser_uint256 (member ABlockHeader.nNonce ABlockHeader.set_nNonce) ;;;
             READWRITE ser_bytes
               (member ABlockHeader.nSolution ABlockHeader.set_nSolution))
              CSerActionUnserialize nType' fr
              (firstn k (ser ser_uint256 (ABlockHeader.headerHash h) ++
                         ser ser_uint256 (ABlockHeader.nNonce h) ++
                         ser ser_bytes (ABlockHeader.nSolution h)))
            = Err TruncatedInput).
  { short_step ser_uint256_reads_back (fixed_unsigned_fails_short 32) Hhash.
    short_step ser_uint256_reads_back (fixed_unsigned_fails_short 32) Hnonce.
    intros fr k' Hk'.
    apply (READWRITE_short _ _ _ _ _ _ _ ser_bytes_fails_short Hsol Hk'). }
  rewrite (E _ k Hk). reflexivity.
Qed.

Lemma ABlockHeader_Unserialize_truncated_witness :
  ABlockHeader.valid (ABlockHeader.mk 11 12 [byte.of_Z 1; byte.of_Z 2]) = true /\
  ABlockHeader.Unserialize ABlockHeader.ctor
    (firstn 66 (ABlockHeader.Serialize (ABlockHeader.mk 11 12 [byte.of_Z 1; byte.of_Z 2])
                  SER_NETWORK 0))
    SER_NETWORK 0
  = Err TruncatedInput.
Proof.
  split; [reflexivity |].
  apply (ABlockHeader_Unserialize_truncated
           (ABlockHeader.mk 11 12 [byte.of_Z 1; byte.of_Z 2])
           ABlockHeader.ctor 66 SER_NETWORK 0 SER_NETWORK 0).
  - reflexivity.
  - vm_compute. lia.
Defined.

(** X13.  The legacy Equihash input is the first [HEADER_SIZE] = 32 bytes of
    the legacy header's full encoding, which goes on with the nonce and the
    length-prefixed solution; it is the same for two headers with the same
    [headerHash]. *)
Theorem AEquihashInput_prefix (h : ABlockHeader.t) (nType nVer : Z) :
  AEquihashInput.Serialize (AEquihashInput.of_header h) nType nVer
    = firstn (Z.to_nat ABlockHeader.HEADER_SIZE) (ABlockHeader.Serialize h nType nVer) /\
  ABlockHeader.Serialize h nType nVer =
    AEquihashInput.Serialize (AEquihashInput.of_header h) nType nVer ++
    le_split 32 (ABlockHeader.nNonce h) ++ ser ser_bytes (ABlockHeader.nSolution h) /\
  forall nonce solution,
    AEquihashInput.Serialize
      (AEquihashInput.of_header (ABlockHeader.mk (ABlockHeader.headerHash h) nonce solution))
      nType nVer
    = AEquihashInput.Serialize (AEquihashInput.of_header h) nType nVer.
Proof.
  assert (E : AEquihashInput.Serialize (AEquihashInput.of_header h) nType nVer
              = le_split 32 (ABlockHeader.headerHash h)) by reflexivity.
  assert (F : ABlockHeader.Serialize h nType nVer =
              AEquihashInput.Serialize (AEquihashInput.of_header h) nType nVer ++
              le_split 32 (ABlockHeader.nNonce h) ++
              ser ser_bytes (ABlockHeader.nSolution h)).
  { rewrite ABlockHeader_Serialize_fields, E. reflexivity. }
  split; [| split]; [| exact F | reflexivity].
  rewrite F, E. change (Z.to_nat ABlockHeader.HEADER_SIZE) with 32%nat.
  rewrite firstn_app_short by (rewrite length_le_split; lia).
  rewrite firstn_all2 by (rewrite length_le_split; lia). reflexivity.
Qed.

(** X14.  [ABlock::SetNull] resets the header and leaves the cached Merkle
    tree as it is; a block constructed from a header has an empty cache and
    gives that header back; and the header of any legacy block is its base
    header. *)
Theorem ABlock_SetNull_keeps_cache (b : ABlock.t) (h : ABlockHeader.t) :
  ABlock.SetNull b = ABlock.mk ABlockHeader.ctor (ABlock.vMerkleTree b) /\
  ABlock.vMerkleTree (ABlock.of_header h) = [] /\
  ABlock.GetBlockHeader (ABlock.of_header h) = h /\
  ABlock.GetBlockHeader b = ABlock.base b.
Proof.
  destruct b as [[] cache], h. repeat split.
Qed.

(** X15.  A legacy block's encoding is exactly its header's encoding, the
    cached tree left out; reading it into an object gives the header and
    leaves the object's cached tree as it was. *)
Theorem ABlock_Serialize_Unserialize
  (b obj : ABlock.t) (rest : stream) (nType nVer : Z) :
  ABlockHeader.valid (ABlock.base b) = true ->
  ABlock.Serialize b nType nVer = ABlockHeader.Serialize (ABlock.base b) nType nVer /\
  ABlock.Unserialize obj (ABlock.Serialize b nType nVer ++ rest) nType nVer
  = Ok (ABlock.mk (ABlock.base b) (ABlock.vMerkleTree obj), rest).
Proof.
  intros Hv.
  assert (E : ABlock.Serialize b nType nVer
              = ABlockHeader.Serialize (ABlock.base b) nType nVer).
  { unfold ABlock.Serialize, Serialize_with, ABlock.SerializationOp.
    cbv [READWRITE_obj member get set fst snd].
    rewrite ABlockHeader_op_write. reflexivity. }
  split; [exact E |]. rewrite E.
  unfold ABlock.Unserialize, Unserialize_with, ABlock.SerializationOp.
  cbn [READWRITE_obj member get set fst snd].
  rewrite ABlockHeader_op_read by exact Hv. reflexivity.
Qed.

Lemma ABlock_Serialize_Unserialize_witness :
  ABlockHeader.valid (ABlockHeader.mk 11 12 [byte.of_Z 1]) = true /\
  ABlock.Unserialize (ABlock.mk ABlockHeader.ctor [3; 4])
    (ABlock.Serialize (ABlock.mk (ABlockHeader.mk 11 12 [byte.of_Z 1]) [8])
       SER_NETWORK 0 ++ [])
    SER_NETWORK 0
  = Ok (ABlock.mk (ABlockHeader.mk 11 12 [byte.of_Z 1]) [3; 4], []).
Proof.
  split; [reflexivity |].
  apply (ABlock_Serialize_Unserialize
           (ABlock.mk (ABlockHeader.mk 11 12 [byte.of_Z 1]) [8])
           (ABlock.mk ABlockHeader.ctor [3; 4]) [] SER_NETWORK 0).
  reflexivity.
Defined.

(** ** Sizes and serialization parameters *)

Section SizeFacts.

Lemma length_concat_le_split (n : nat) (v : list Z) :
  length (concat (map (le_split n) v)) = (n * length v)%nat.
Proof.
  induction v as [| x v IH]; cbn [map concat length]; [lia |].
  rewrite length_app, length_le_split, IH. lia.
Qed.

End SizeFacts.

(** X16.  A locator of [n] hashes encodes to the 4 bytes of the version,
    unless the type flags have [SER_GETHASH], then the compact size of [n],
    then 32 bytes for each hash. *)
Theorem CBlockLocator_Serialize_size (l : CBlockLocator.t) (nType nVer : Z) :
  Z.of_nat (length (CBlockLocator.Serialize l nType nVer)) =
  (if truthy (Z.land nType SER_GETHASH) then 0 else 4) +
  Z.of_nat (length (WriteCompactSize (Z.of_nat (length (CBlockLocator.vHave l))))) +
  32 * Z.of_nat (length (CBlockLocator.vHave l)).
Proof.
  unfold CBlockLocator.Serialize, Serialize_with, CBlockLocator.SerializationOp.
  cbv [seq_op when_nType READWRITE obind oret member local_nVersion get set fst snd].
  destruct (truthy (Z.land nType SER_GETHASH)); cbn [negb];
    cbn [ser ser_vector ser_int32 ser_uint256 fixed_unsigned];
    rewrite !length_app, ?length_le_split, length_concat_le_split.
  all: cbn [length]; unfold uint256; lia.
Qed.

(** X17.  The encodings of a header, of its Equihash input and of a legacy
    header are the same bytes whatever the type flags and the version
    passed to the serializer. *)
Theorem header_encodings_ignore_nType_nVersion
  (h : CBlockHeader.t) (a : ABlockHeader.t) (nType nVer nType' nVer' : Z) :
  CBlockHeader.Serialize h nType nVer = CBlockHeader.Serialize h nType' nVer' /\
  CEquihashInput.Serialize (CEquihashInput.of_header h) nType nVer
    = CEquihashInput.Serialize (CEquihashInput.of_header h) nType' nVer' /\
  ABlockHeader.Serialize a nType nVer = ABlockHeader.Serialize a nType' nVer' /\
  AEquihashInput.Serialize (AEquihashInput.of_header a) nType nVer
    = AEquihashInput.Serialize (AEquihashInput.of_header a) nType' nVer'.
Proof.
  split; [| split; [| split]].
  - rewrite !Serialize_fields. reflexivity.
  - rewrite !CEquihashInput_Serialize_fields. reflexivity.
  - rewrite !ABlockHeader_Serialize_fields. reflexivity.
  - reflexivity.
Qed.
